(** * PanoramaViewer: the capture orchestration engine

    A shallow embedding of [src/components/PanoramaViewer.jsx] (the active
    revision, lines 1-1172 of the file; everything below it is commented
    out).  The embedding covers

    - the coverage planner ([maxCaptures], [initializeQueue]),
    - the stability detector ([handleMotion]),
    - the capture pipeline ([performCapture], the frame it draws on the
      hidden canvas, its image-load continuation, [captureImage], the
      auto-capture test of [animate], [resetPanorama]) and the buttons that
      call it,
    - the sharpening filter ([sharpenImage]).

    JavaScript numbers that hold integers are [Z] and the sensor readings
    are doubles ([float], IEEE 754 binary64); arrays are lists read
    with [!!] and written with [<[_:=_]>]; the object used as a dictionary
    is a [gmap]; mutable refs and React state are fields of one explicit
    state record that every operation takes and returns. *)

From stdpp Require Import base numbers list strings pretty gmap.
From Stdlib Require Import ZArith PrimFloat Lia.

Open Scope Z_scope.

(* ===================================================================== *)
(** * Coverage planner *)
(* ===================================================================== *)

Module Planner.

(** [{ azimuth, elevation }], the object pushed on the queue. *)
Record CaptureTarget := mkTarget { azimuth : Z; elevation : Z }.

#[export] Instance CaptureTarget_eq_dec : EqDecision CaptureTarget.
Proof. solve_decision. Defined.

#[export] Instance CaptureTarget_inhabited : Inhabited CaptureTarget :=
  populate (mkTarget 0 0).

(** [Math.ceil(a / b)] for integers [a] and [b <> 0].  The quotient of two
    small integers is either an integer or at least [1/|b|] away from one,
    so the rounding of the double division never changes the ceiling. *)
Definition ceilDiv (a b : Z) : Z := - ((- a) / b).

(** [azimuthIncrements[elev] || 60]: a missing key gives [undefined], and
    [undefined] and [0] are both falsy. *)
Definition incrementOf (azimuthIncrements : gmap Z Z) (elev : Z) : Z :=
  match azimuthIncrements !! elev with
  | Some inc => if inc =? 0 then 60 else inc
  | None => 60
  end.

(** [elevationLevels.reduce((total, elev) => total + Math.ceil(360 / increment), 0)] *)
Definition maxCaptures (elevationLevels : list Z) (azimuthIncrements : gmap Z Z) : Z :=
  fold_left
    (fun total elev =>
       let increment := incrementOf azimuthIncrements elev in
       total + ceilDiv 360 increment)
    elevationLevels 0.

(** [for (let i = 0; i < captures; i++) queue.push({azimuth: i * increment, elevation: elev})],
    started at index [i] with [n] iterations left. *)
Fixpoint pushBand (n : nat) (i : Z) (increment elev : Z)
         (queue : list CaptureTarget) : list CaptureTarget :=
  match n with
  | O => queue
  | S n' => pushBand n' (i + 1) increment elev
                     (queue ++ [mkTarget (i * increment) elev])
  end.

(** The body of [elevationLevels.forEach(elev => ...)]. *)
Definition pushLevel (azimuthIncrements : gmap Z Z)
           (queue : list CaptureTarget) (elev : Z) : list CaptureTarget :=
  let increment := incrementOf azimuthIncrements elev in
  let captures := ceilDiv 360 increment in
  pushBand (Z.to_nat captures) 0 increment elev queue.

(** [while (queue.length > maxCaptures) queue.pop()].  [pop] on an empty
    array leaves it empty, so with a negative bound the loop never ends:
    [None] is "out of fuel". *)
Fixpoint truncateQueue (fuel : nat) (bound : Z)
         (queue : list CaptureTarget) : option (list CaptureTarget) :=
  match fuel with
  | O => None
  | S fuel' =>
      if Z.of_nat (length queue) >? bound
      then truncateQueue fuel' bound (removelast queue)
      else Some queue
  end.

(** [initializeQueue], and the identical block of [resetPanorama]: the
    array that is stored in [captureQueueRef.current].  One unit of fuel
    per element and one for the final test is all a terminating run of
    the loop can use. *)
Definition initializeQueue (elevationLevels : list Z)
           (azimuthIncrements : gmap Z Z) : option (list CaptureTarget) :=
  let queue := fold_left (pushLevel azimuthIncrements) elevationLevels [] in
  truncateQueue (S (length queue))
                (maxCaptures elevationLevels azimuthIncrements) queue.

(** The block of [resetPanorama] that rebuilds the queue (lines 574-586);
    it repeats [initializeQueue] statement for statement. *)
Definition resetQueue (elevationLevels : list Z)
           (azimuthIncrements : gmap Z Z) : option (list CaptureTarget) :=
  let newQueue := fold_left (pushLevel azimuthIncrements) elevationLevels [] in
  truncateQueue (S (length newQueue))
                (maxCaptures elevationLevels azimuthIncrements) newQueue.

(** ** The plan as the specification words it

    For each band, in order, [ceil(360 / step)] targets at azimuths
    [0, step, 2 step, ...], bands concatenated. *)
Definition bandPlan (step elev : Z) : list CaptureTarget :=
  map (fun i => mkTarget (Z.of_nat i * step) elev)
      (seq 0 (Z.to_nat (ceilDiv 360 step))).

Definition coveragePlan (bands : list Z) (steps : gmap Z Z) : list CaptureTarget :=
  flat_map (fun elev => bandPlan (incrementOf steps elev) elev) bands.

Definition bandCount (steps : gmap Z Z) (elev : Z) : Z :=
  ceilDiv 360 (incrementOf steps elev).

End Planner.

Import Planner.

(** The constants of the component (lines 50-69). *)
Module Active.

Definition elevationLevels : list Z := [0; 30; 60; 90; -30; -60; -90].

Definition azimuthIncrements : gmap Z Z :=
  {[ 0 := 40; 30 := 45; 60 := 60; 90 := 360;
     -30 := 45; -60 := 60; -90 := 360 ]}.

Definition maxCaptures : Z :=
  Planner.maxCaptures elevationLevels azimuthIncrements.

End Active.

(* ===================================================================== *)
(** * Stability detection (the [devicemotion] effect, lines 291-342) *)
(* ===================================================================== *)

Module Stability.

(** Sensor readings are doubles, as in the source.  A reading the sensor
    does not provide is [null]. *)
Record Acceleration := mkAcc { x : option float; y : option float; z : option float }.
Record RotationRate := mkRot { alpha : option float; beta : option float; gamma : option float }.

(** [event.acceleration] and [event.rotationRate] are objects, or [null]
    on a device that gives no motion information. *)
Record MotionEvent := mkEvent {
  acceleration : option Acceleration;
  rotationRate : option RotationRate
}.

(** [0.05], the double nearest to it. *)
Definition motionThreshold : float := 0x1.999999999999ap-5%float.
Definition stableDuration : Z := 300.

(** [v || 0]: [null], [NaN] and both zeros are falsy. *)
Definition orZero (v : option float) : float :=
  match v with
  | Some f => if PrimFloat.is_nan f || PrimFloat.eqb f 0%float then 0%float else f
  | None => 0%float
  end.

(** [(v || 0) ** 2], the correctly rounded square. *)
Definition sq (v : option float) : float := let w := orZero v in PrimFloat.mul w w.

(** [accMagnitude] and [rotMagnitude]; the sum associates to the left. *)
Definition accMagnitude (a : Acceleration) : float :=
  PrimFloat.sqrt (PrimFloat.add (PrimFloat.add (sq (x a)) (sq (y a))) (sq (z a))).
Definition rotMagnitude (r : RotationRate) : float :=
  PrimFloat.sqrt (PrimFloat.add (PrimFloat.add (sq (alpha r)) (sq (beta r))) (sq (gamma r))).

(** [magnitude < motionThreshold], a comparison of doubles. *)
Definition belowThreshold (magnitude : float) : bool :=
  PrimFloat.ltb magnitude motionThreshold.

(** Both objects are there, so that the handler can read them. *)
Definition informative (e : MotionEvent) : Prop :=
  is_Some (acceleration e) /\ is_Some (rotationRate e).

(** [accMagnitude < motionThreshold && rotMagnitude < motionThreshold],
    for a sample the handler can read; no other sample is found quiet. *)
Definition quiet (e : MotionEvent) : bool :=
  match acceleration e, rotationRate e with
  | Some a, Some r => belowThreshold (accMagnitude a) && belowThreshold (rotMagnitude r)
  | _, _ => false
  end.

(** [isStable] is React state; [stabilityTimeoutRef] holds the pending
    timer, here the time in ms at which it is due ([None]: no timer is
    pending). *)
Record MotionState := mkMotion { isStable : bool; stabilityTimeoutRef : option Z }.

(** [handleMotion], called at time [now].  Reading [acceleration.x] or
    [rotationRate.alpha] of a [null] object throws a TypeError before any
    state is touched: the result is [None]. *)
Definition handleMotion (now : Z) (event : MotionEvent) (st : MotionState)
  : option MotionState :=
  match acceleration event, rotationRate event with
  | Some a, Some r =>
      if belowThreshold (accMagnitude a) && belowThreshold (rotMagnitude r) then
        (* Device is stable *)
        if negb (isStable st)
        then Some (mkMotion true None)            (* setIsStable(true); clearTimeout *)
        else Some st
      else
        (* Device is moving *)
        let stable' := if isStable st then false else isStable st in
        Some (mkMotion stable' (Some (now + stableDuration))) (* clearTimeout; setTimeout *)
  | _, _ => None
  end.

(** The callback of the timer: [setIsStable(false)]. *)
Definition timeoutFires (st : MotionState) : MotionState := mkMotion false None.

(** The cleanup of the effect, run by React when [isStable] has changed:
    [clearTimeout(stabilityTimeoutRef.current)]. *)
Definition effectCleanup (st : MotionState) : MotionState :=
  mkMotion (isStable st) None.

(** One sample of the event stream: a timer that is due fires first, the
    handler runs, and a change of [isStable] re-runs the effect.  A handler
    that throws leaves the state as it was; the listener stays. *)
Definition step (st : MotionState) (sample : Z * MotionEvent) : MotionState :=
  let '(now, event) := sample in
  let st1 := match stabilityTimeoutRef st with
             | Some due => if due <=? now then timeoutFires st else st
             | None => st
             end in
  let st2 := default st1 (handleMotion now event st1) in
  if bool_decide (isStable st2 = isStable st1) then st2 else effectCleanup st2.

Definition run (st : MotionState) (samples : list (Z * MotionEvent)) : MotionState :=
  fold_left step samples st.

(** [useState(false)], [useRef(null)] *)
Definition initial : MotionState := mkMotion false None.

(** ** The dwell of the specification

    The time for which the samples have stayed below the threshold
    without interruption, measured at the last sample: the span between
    the first sample of the trailing quiet run and the last sample. *)
Fixpoint quietSince (newestFirst : list (Z * MotionEvent)) : option Z :=
  match newestFirst with
  | [] => None
  | (t, e) :: older =>
      if quiet e
      then Some (default t (quietSince older))
      else None
  end.

Definition dwellTime (samples : list (Z * MotionEvent)) : Z :=
  match rev samples with
  | [] => 0
  | (tLast, _) :: _ =>
      match quietSince (rev samples) with
      | Some t0 => tLast - t0
      | None => 0
      end
  end.

(** A device at rest: every reading is zero. *)
Definition atRest : MotionEvent :=
  mkEvent (Some (mkAcc (Some 0%float) (Some 0%float) (Some 0%float)))
          (Some (mkRot (Some 0%float) (Some 0%float) (Some 0%float))).

End Stability.

(* ===================================================================== *)
(** * The sharpening filter ([sharpenImage], lines 726-773) *)
(* ===================================================================== *)

Module Sharpen.

(** The [ImageData] of a canvas: [data] holds [4 * width * height] bytes,
    RGBA, row by row.  Drawing the image on the canvas and encoding the
    canvas as a PNG data URL are lossless on opaque pixels and on
    transparent black ones, and are the identity here. *)
Record ImageData := mkImage { width : Z; height : Z; data : list Z }.

#[export] Instance ImageData_eq_dec : EqDecision ImageData.
Proof. solve_decision. Defined.

Definition kernel : list Z :=
  [ 0; -1;  0;
   -1;  5; -1;
    0; -1;  0].

(** [createImageData(width, height)]: transparent black. *)
Definition createImageData (width height : Z) : list Z :=
  replicate (Z.to_nat (width * height * 4)) 0.

(** A [for (let v = 0; v < n; v++)] loop threading [acc]. *)
Definition forLoop {A : Type} (n : Z) (body : A -> Z -> A) (acc : A) : A :=
  fold_left body (seqZ 0 n) acc.

(** The body of the two kernel loops for the tap [(ky, kx)] at pixel
    [(x, y)]; [acc] is [(r, g, b)]. *)
Definition tap (img : ImageData) (x y : Z) (ky : Z) (acc : Z * Z * Z) (kx : Z)
  : Z * Z * Z :=
  let '(r, g, b) := acc in
  let px := x + kx - 1 in
  let py := y + ky - 1 in
  if (0 <=? px) && (px <? width img) && (0 <=? py) && (py <? height img) then
    let pos := (py * width img + px) * 4 in
    let weight := kernel !!! Z.to_nat (ky * 3 + kx) in
    (r + data img !!! Z.to_nat pos * weight,
     g + data img !!! Z.to_nat (pos + 1) * weight,
     b + data img !!! Z.to_nat (pos + 2) * weight)
  else acc.

(** The body of the [x] loop: accumulate the nine taps, then write the
    four bytes of the pixel. *)
Definition sharpenPixel (img : ImageData) (y : Z) (outData : list Z) (x : Z) : list Z :=
  let '(r, g, b) :=
    forLoop 3 (fun acc ky => forLoop 3 (tap img x y ky) acc) (0, 0, 0) in
  let idx := (y * width img + x) * 4 in
  let outData := <[Z.to_nat idx := Z.min (Z.max r 0) 255]> outData in
  let outData := <[Z.to_nat (idx + 1) := Z.min (Z.max g 0) 255]> outData in
  let outData := <[Z.to_nat (idx + 2) := Z.min (Z.max b 0) 255]> outData in
  <[Z.to_nat (idx + 3) := 255]> outData.

Definition sharpenRow (img : ImageData) (outData : list Z) (y : Z) : list Z :=
  forLoop (width img) (sharpenPixel img y) outData.

(** [sharpenImage] on the pixels of the image. *)
Definition sharpenImage (image : ImageData) : ImageData :=
  let outData := createImageData (width image) (height image) in
  mkImage (width image) (height image)
          (forLoop (height image) (sharpenRow image) outData).

(** ** The filter as the specification words it *)

Definition kernel3x3 : list (list Z) := [[0; -1; 0]; [-1; 5; -1]; [0; -1; 0]].

Definition weightAt (ky kx : Z) : Z :=
  (kernel3x3 !!! Z.to_nat ky) !!! Z.to_nat kx.

Definition inBounds (img : ImageData) (px py : Z) : bool :=
  (0 <=? px) && (px <? width img) && (0 <=? py) && (py <? height img).

(** Channel [c] (0 red, 1 green, 2 blue, 3 alpha) of pixel [(px, py)]. *)
Definition channel (img : ImageData) (px py c : Z) : Z :=
  data img !!! Z.to_nat ((py * width img + px) * 4 + c).

(** The contribution of the tap at offset [(kx - 1, ky - 1)]: zero when it
    falls outside the image. *)
Definition tapTerm (img : ImageData) (x y c ky kx : Z) : Z :=
  if inBounds img (x + kx - 1) (y + ky - 1)
  then weightAt ky kx * channel img (x + kx - 1) (y + ky - 1) c
  else 0.

Definition convolve (img : ImageData) (x y c : Z) : Z :=
  tapTerm img x y c 0 0 + tapTerm img x y c 0 1 + tapTerm img x y c 0 2 +
  tapTerm img x y c 1 0 + tapTerm img x y c 1 1 + tapTerm img x y c 1 2 +
  tapTerm img x y c 2 0 + tapTerm img x y c 2 1 + tapTerm img x y c 2 2.

Definition clamp (v : Z) : Z :=
  if v <? 0 then 0 else if 255 <? v then 255 else v.

(** The offset of pixel [(x, y)] in the byte array. *)
Definition byteOffset (img : ImageData) (x y : Z) : Z := (y * width img + x) * 4.

(** What the filter is to leave in byte [c] of pixel [(x, y)]. *)
Definition pixelValue (img : ImageData) (x y c : Z) : Z :=
  if c =? 3 then 255 else clamp (convolve img x y c).

(** The bytes of an [ImageData] are well formed. *)
Definition wellFormed (img : ImageData) : Prop :=
  0 <= width img /\ 0 <= height img /\
  Z.of_nat (length (data img)) = 4 * width img * height img.

End Sharpen.

(* ===================================================================== *)
(** * The video frame on the hidden canvas (lines 396-400) *)
(* ===================================================================== *)

Module Camera.

Import Sharpen.

(** The video element of the video texture.  It is created when the scene
    is built and exists whether or not a camera stream plays in it:
    [videoWidth] and [videoHeight] are 0 and there is no frame to draw
    until the stream has delivered one, and for good when [getUserMedia]
    is refused.  [pixels] are the bytes of the current frame, RGBA, at the
    size of the video. *)
Record Video := mkVideo {
  videoWidth : Z;
  videoHeight : Z;
  pixels : option (list Z)
}.

(** [n || fallback] for a dimension: 0 is falsy. *)
Definition orElse (n fallback : Z) : Z := if n =? 0 then fallback else n.

(** The hidden canvas after [hiddenCanvas.width = video.videoWidth || 1280],
    [hiddenCanvas.height = video.videoHeight || 720] and [ctx.drawImage]:
    sizing the canvas clears it to transparent black, and [drawImage] of a
    video without a frame draws nothing. *)
Definition drawImage (video : Video) : ImageData :=
  let w := orElse (videoWidth video) 1280 in
  let h := orElse (videoHeight video) 720 in
  mkImage w h (default (createImageData w h) (pixels video)).

(** A video element in which no stream has delivered a frame. *)
Definition noFrame : Video := mkVideo 0 0 None.

End Camera.

(* ===================================================================== *)
(** * The capture pipeline *)
(* ===================================================================== *)

Module Session.

Import Sharpen.

(** A Three.js object placed by [placeObjectOnSphere].  Its position is
    kept as the angles it was placed at ([None]: never placed); the
    trigonometry of the placement is outside the model. *)
Record SceneObject := mkObject { position : option CaptureTarget; visible : bool }.

(** A captured plane: where it was placed, its texture, and the pointers
    [addMiddlePointer] has attached to it (their [userData]). *)
Record CapturedPlane := mkPlane {
  placedAt : CaptureTarget;
  texture : ImageData;
  pointers : list CaptureTarget
}.

(** The refs and the React state of the component.  [heap] holds the
    arrays that have been, or are, the capture queue; [captureQueueRef]
    is the index of the current one, so that a closure can keep hold of
    an array that [resetPanorama] has replaced.  [rendererRef],
    [sceneRef], [hiddenCanvasRef] and [videoImage] say whether the ref is
    non-null.  The preview image, the flash, vibration, tweens, logging and
    the disposal of Three.js geometry are not modelled. *)
Record State := mkState {
  heap : list (list CaptureTarget);
  captureQueueRef : nat;
  capturedPlanesRef : list CapturedPlane;
  captureCountRef : Z;
  capturingRef : bool;
  firstCaptureDoneRef : bool;
  videoPlaneRef : option SceneObject;
  markerRef : option SceneObject;
  rendererRef : bool;
  sceneRef : bool;
  hiddenCanvasRef : bool;
  videoImage : bool;
  instructions : string;
  captureCount : Z;
  isPanoramaComplete : bool;
  isStable : bool;
  thumbnails : list ImageData;
  queueReady : bool
}.

Definition set_heap (v : list (list CaptureTarget)) (s : State) : State :=
  let 'mkState _ a2 a3 a4 a5 a6 a7 a8 a9 a10 a11 a12 a13 a14 a15 a16 a17 a18 := s in
  mkState v a2 a3 a4 a5 a6 a7 a8 a9 a10 a11 a12 a13 a14 a15 a16 a17 a18.
Definition set_captureQueueRef (v : nat) (s : State) : State :=
  let 'mkState a1 _ a3 a4 a5 a6 a7 a8 a9 a10 a11 a12 a13 a14 a15 a16 a17 a18 := s in
  mkState a1 v a3 a4 a5 a6 a7 a8 a9 a10 a11 a12 a13 a14 a15 a16 a17 a18.
Definition set_capturedPlanesRef (v : list CapturedPlane) (s : State) : State :=
  let 'mkState a1 a2 _ a4 a5 a6 a7 a8 a9 a10 a11 a12 a13 a14 a15 a16 a17 a18 := s in
  mkState a1 a2 v a4 a5 a6 a7 a8 a9 a10 a11 a12 a13 a14 a15 a16 a17 a18.
Definition set_captureCountRef (v : Z) (s : State) : State :=
  let 'mkState a1 a2 a3 _ a5 a6 a7 a8 a9 a10 a11 a12 a13 a14 a15 a16 a17 a18 := s in
  mkState a1 a2 a3 v a5 a6 a7 a8 a9 a10 a11 a12 a13 a14 a15 a16 a17 a18.
Definition set_capturingRef (v : bool) (s : State) : State :=
  let 'mkState a1 a2 a3 a4 _ a6 a7 a8 a9 a10 a11 a12 a13 a14 a15 a16 a17 a18 := s in
  mkState a1 a2 a3 a4 v a6 a7 a8 a9 a10 a11 a12 a13 a14 a15 a16 a17 a18.
Definition set_firstCaptureDoneRef (v : bool) (s : State) : State :=
  let 'mkState a1 a2 a3 a4 a5 _ a7 a8 a9 a10 a11 a12 a13 a14 a15 a16 a17 a18 := s in
  mkState a1 a2 a3 a4 a5 v a7 a8 a9 a10 a11 a12 a13 a14 a15 a16 a17 a18.
Definition set_videoPlaneRef (v : option SceneObject) (s : State) : State :=
  let 'mkState a1 a2 a3 a4 a5 a6 _ a8 a9 a10 a11 a12 a13 a14 a15 a16 a17 a18 := s in
  mkState a1 a2 a3 a4 a5 a6 v a8 a9 a10 a11 a12 a13 a14 a15 a16 a17 a18.
Definition set_markerRef (v : option SceneObject) (s : State) : State :=
  let 'mkState a1 a2 a3 a4 a5 a6 a7 _ a9 a10 a11 a12 a13 a14 a15 a16 a17 a18 := s in
  mkState a1 a2 a3 a4 a5 a6 a7 v a9 a10 a11 a12 a13 a14 a15 a16 a17 a18.
Definition set_instructions (v : string) (s : State) : State :=
  let 'mkState a1 a2 a3 a4 a5 a6 a7 a8 a9 a10 a11 a12 _ a14 a15 a16 a17 a18 := s in
  mkState a1 a2 a3 a4 a5 a6 a7 a8 a9 a10 a11 a12 v a14 a15 a16 a17 a18.
Definition set_captureCount (v : Z) (s : State) : State :=
  let 'mkState a1 a2 a3 a4 a5 a6 a7 a8 a9 a10 a11 a12 a13 _ a15 a16 a17 a18 := s in
  mkState a1 a2 a3 a4 a5 a6 a7 a8 a9 a10 a11 a12 a13 v a15 a16 a17 a18.
Definition set_isPanoramaComplete (v : bool) (s : State) : State :=
  let 'mkState a1 a2 a3 a4 a5 a6 a7 a8 a9 a10 a11 a12 a13 a14 _ a16 a17 a18 := s in
  mkState a1 a2 a3 a4 a5 a6 a7 a8 a9 a10 a11 a12 a13 a14 v a16 a17 a18.
Definition set_isStable (v : bool) (s : State) : State :=
  let 'mkState a1 a2 a3 a4 a5 a6 a7 a8 a9 a10 a11 a12 a13 a14 a15 _ a17 a18 := s in
  mkState a1 a2 a3 a4 a5 a6 a7 a8 a9 a10 a11 a12 a13 a14 a15 v a17 a18.
Definition set_thumbnails (v : list ImageData) (s : State) : State :=
  let 'mkState a1 a2 a3 a4 a5 a6 a7 a8 a9 a10 a11 a12 a13 a14 a15 a16 _ a18 := s in
  mkState a1 a2 a3 a4 a5 a6 a7 a8 a9 a10 a11 a12 a13 a14 a15 a16 v a18.
Definition set_queueReady (v : bool) (s : State) : State :=
  let 'mkState a1 a2 a3 a4 a5 a6 a7 a8 a9 a10 a11 a12 a13 a14 a15 a16 a17 _ := s in
  mkState a1 a2 a3 a4 a5 a6 a7 a8 a9 a10 a11 a12 a13 a14 a15 a16 a17 v.

(** The array [captureQueueRef.current]. *)
Definition queueAt (loc : nat) (s : State) : list CaptureTarget := heap s !!! loc.
Definition currentQueue (s : State) : list CaptureTarget := queueAt (captureQueueRef s) s.

(** What the closure of the image-load handlers has captured when
    [performCapture] returns its pending promise: the dequeued target, the
    queue array, [isAuto], and the frame drawn on the hidden canvas. *)
Record Capture := mkCapture {
  cAzimuth : Z;
  cElevation : Z;
  cQueue : nat;
  cIsAuto : bool;
  cFrame : ImageData
}.

(** What a call leaves behind: a promise already resolved, a promise that
    resolves when the images have loaded, or a [TypeError]. *)
Inductive Outcome :=
| Resolved
| Loading (c : Capture)
| Threw.

Definition msgMoving : string :=
  "Device is moving. Please hold steady to capture a clear image.".
Definition msgCompleted : string :=
  "All captures completed. Preview your panorama!".
Definition msgFirst : string :=
  "Image captured at Equator. Tilt your device upward to align with the next marker for automatic capture.".
Definition msgStart : string :=
  "Keep your device straight and press 'Capture' to take the first image at the Equator.".
Definition msgCaptured (n : Z) : string :=
  "Image " +:+ pretty n +:+ " captured. Continue aligning your device for the next capture.".

(** [if (ref.current) ref.current.visible = v] *)
Definition setVisible (v : bool) (o : option SceneObject) : option SceneObject :=
  (fun obj => mkObject (position obj) v) <$> o.

(** The completion block that [performCapture] has twice. *)
Definition complete (s : State) : State :=
  let s := set_instructions msgCompleted s in
  let s := set_isPanoramaComplete true s in
  let s := set_videoPlaneRef (setVisible false (videoPlaneRef s)) s in
  set_markerRef (setVisible false (markerRef s)) s.

(** [performCapture(isAuto)] up to the point where it returns; [frame] is
    what [Camera.drawImage] has put on the hidden canvas at that moment. *)
Definition performCapture (isAuto : bool) (frame : ImageData) (s : State)
  : State * Outcome :=
  if negb (isStable s) then
    (set_instructions msgMoving s, Resolved)
  else if capturingRef s then
    (s, Resolved)
  else
    let s := set_capturingRef true s in
    let queue := captureQueueRef s in
    if negb (rendererRef s) || negb (sceneRef s) || bool_decide (videoPlaneRef s = None)
       || bool_decide (markerRef s = None) || negb (hiddenCanvasRef s)
       || negb (videoImage s)
    then (set_capturingRef false s, Resolved)
    else if bool_decide (length (queueAt queue s) = 0%nat) then
      (set_capturingRef false (complete s), Resolved)
    else
      (* const { azimuth, elevation } = queue.shift() *)
      match queueAt queue s with
      | [] => (s, Threw)
      | target :: rest =>
          (set_heap (<[queue := rest]> (heap s)) s,
           Loading (mkCapture (azimuth target) (elevation target) queue isAuto frame))
      end.

(** [addMiddlePointer(previousPlane, azimuth, elevation)] *)
Definition addMiddlePointer (next : CaptureTarget) (p : CapturedPlane) : CapturedPlane :=
  mkPlane (placedAt p) (texture p) (pointers p ++ [next]).

(** [placeObjectOnSphere(obj, azimuth, elevation)]; a null [obj] raises. *)
Definition placeObjectOnSphere (obj : option SceneObject) (t : CaptureTarget)
  : option SceneObject :=
  (fun o => mkObject (Some t) (visible o)) <$> obj.

(** The handler that runs when the sharpened image has loaded (lines
    412-498).  It reads the refs as they are when it runs.  The source
    moves the video plane of [videoPlaneRef] and the marker its closure
    took from [markerRef] at the call; here the object of [markerRef] is
    moved.  The two are one object unless the scene was rebuilt between
    call and load, and then the rebuilt marker stands at the head of the
    queue, which is where the handler moves its marker to, as long as the
    queue array is still the current one, that is, as long as no
    [resetPanorama] ran in between.  [None] is the [TypeError] of placing
    a null object. *)
Definition performCapture_onload (c : Capture) (s : State) : option State :=
  let sharpenedImg := sharpenImage (cFrame c) in
  let capturedPlane := mkPlane (mkTarget (cAzimuth c) (cElevation c)) sharpenedImg [] in
  let s := set_capturedPlanesRef (capturedPlanesRef s ++ [capturedPlane]) s in
  let s := set_thumbnails (thumbnails s ++ [sharpenedImg]) s in
  let s :=
    if bool_decide (1 < length (capturedPlanesRef s))%nat then
      match queueAt (cQueue c) s !! 0%nat with
      | Some nextCapture =>
          set_capturedPlanesRef
            (alter (addMiddlePointer nextCapture)
                   (length (capturedPlanesRef s) - 2)%nat (capturedPlanesRef s)) s
      | None => s
      end
    else s in
  let s := set_captureCountRef (captureCountRef s + 1) s in
  let s := set_captureCount (captureCountRef s) s in
  let s :=
    if negb (cIsAuto c)
    then set_firstCaptureDoneRef true (set_instructions msgFirst s)
    else set_instructions (msgCaptured (captureCountRef s)) s in
  s' ← match queueAt (cQueue c) s with
       | nextCapture :: _ =>
           videoPlane ← placeObjectOnSphere (videoPlaneRef s) nextCapture;
           marker ← placeObjectOnSphere (markerRef s) nextCapture;
           Some (set_markerRef (Some marker) (set_videoPlaneRef (Some videoPlane) s))
       | [] => Some s
       end;
  let s := if Active.maxCaptures <=? captureCountRef s' then complete s' else s' in
  Some (set_capturingRef false s).

(** [captureImage], the handler of the Capture button. *)
Definition captureImage (frame : ImageData) (s : State) : State * Outcome :=
  if negb (capturingRef s) && (captureCountRef s <? Active.maxCaptures)
  then performCapture false frame s
  else (s, Resolved).

(** The auto-capture block of [animate] (lines 244-255) with the callback
    of [.then]; [markerCentered] is the value of [isMarkerCentered].  The
    callback runs as soon as the promise is resolved; after a load it finds
    [capturingRef] already cleared by the load handler. *)
Definition animate (markerCentered : bool) (frame : ImageData) (s : State)
  : State * Outcome :=
  if firstCaptureDoneRef s && negb (capturingRef s)
     && (captureCountRef s <? Active.maxCaptures) && markerCentered && isStable s
  then
    let s := set_capturingRef true s in
    match performCapture true frame s with
    | (s', Resolved) => (set_capturingRef false s', Resolved)
    | other => other
    end
  else (s, Resolved).

(** [resetPanorama].  [None]: the loop that trims the new queue does not
    end. *)
Definition resetPanorama (s : State) : option State :=
  if negb (sceneRef s) || bool_decide (videoPlaneRef s = None)
     || bool_decide (markerRef s = None)
  then Some s
  else
    let s := set_capturedPlanesRef [] s in
    let s := set_captureCountRef 0 s in
    let s := set_capturingRef false s in
    let s := set_firstCaptureDoneRef false s in
    let s := set_captureCount 0 s in
    let s := set_instructions msgStart s in
    let s := set_isPanoramaComplete false s in
    let s := set_queueReady false s in
    let s := set_thumbnails [] s in
    newQueue ← resetQueue Active.elevationLevels Active.azimuthIncrements;
    let s := set_captureQueueRef (length (heap s)) (set_heap (heap s ++ [newQueue]) s) in
    let s := set_queueReady true s in
    let s :=
      match currentQueue s with
      | firstCapture :: _ =>
          set_markerRef (placeObjectOnSphere (markerRef s) firstCapture)
            (set_videoPlaneRef (placeObjectOnSphere (videoPlaneRef s) firstCapture) s)
      | [] => s
      end in
    let s := set_videoPlaneRef (setVisible true (videoPlaneRef s)) s in
    Some (set_markerRef (setVisible true (markerRef s)) s).

(** The component once its effects have run: the queue initialised, the
    scene built, the video plane and the marker at the first target. *)
Definition mounted : option State :=
  queue ← initializeQueue Active.elevationLevels Active.azimuthIncrements;
  let first := head queue in
  Some (mkState [[]; queue] 1 [] 0 false false
                (Some (mkObject first true)) (Some (mkObject first true))
                true true true true
                msgStart 0 false false [] true).

(** One capture from trigger to tile: the call and, if it left a load
    pending, the load handler. *)
Definition captureOnce (isAuto : bool) (frame : ImageData) (s : State) : option State :=
  match performCapture isAuto frame s with
  | (s', Loading c) => performCapture_onload c s'
  | (s', Resolved) => Some s'
  | (_, Threw) => None
  end.

(** Captures one after the other, one per [(isAuto, frame)]. *)
Fixpoint captureAll (inputs : list (bool * ImageData)) (s : State) : option State :=
  match inputs with
  | [] => Some s
  | (isAuto, frame) :: rest =>
      s' ← captureOnce isAuto frame s;
      captureAll rest s'
  end.

(** The refs a capture needs are all set. *)
Definition ready (s : State) : Prop :=
  rendererRef s = true /\ sceneRef s = true /\ hiddenCanvasRef s = true /\
  videoImage s = true /\ is_Some (videoPlaneRef s) /\ is_Some (markerRef s).

(** Nothing but the instruction message differs between [s] and [s']. *)
Definition onlyInstructions (s s' : State) : Prop :=
  s' = set_instructions (instructions s') s.

(** ** States and frames to run the pipeline on *)

Definition onePixel : ImageData := mkImage 1 1 [10; 20; 30; 255].

(** The mounted component (its queue written out), device held steady. *)
Definition steady : State :=
  mkState [[]; coveragePlan Active.elevationLevels Active.azimuthIncrements] 1
          [] 0 false false
          (Some (mkObject (Some (mkTarget 0 0)) true))
          (Some (mkObject (Some (mkTarget 0 0)) true))
          true true true true
          msgStart 0 false true [] true.

(** The same while the device moves. *)
Definition moving : State := set_isStable false steady.

(** The same after the first manual capture has been started. *)
Definition inFlight : State := fst (performCapture false onePixel steady).

End Session.

(* ===================================================================== *)
(** * The controls the component renders (the JSX, lines 885-977) *)
(* ===================================================================== *)

Module Ui.

Import Session.

(** The condition under which the Capture button is rendered (line 886). *)
Definition captureButtonShown (s : State) : bool :=
  queueReady s && (captureCount s <? Active.maxCaptures)
  && bool_decide (0 < length (currentQueue s))%nat
  && negb (firstCaptureDoneRef s).

(** [disabled={!isStable}] (line 889). *)
Definition captureButtonEnabled (s : State) : bool := isStable s.

(** The condition under which the Reset button is rendered (line 943). *)
Definition resetButtonShown (s : State) : bool :=
  (0 <? captureCount s) && negb (isPanoramaComplete s).

(** The loads a call has left pending. *)
Definition pendingOf (o : Outcome) : list Capture :=
  match o with
  | Loading c => [c]
  | _ => []
  end.

(** The component together with the image loads that have not finished. *)
Definition Config : Type := State * list Capture.

(** The effect that builds the scene (lines 121-278).  [isStable] is among
    its dependencies, so it runs again whenever that changes: renderer,
    scene, video texture and hidden canvas are created anew, and a new video
    plane and a new marker are placed at the head of the queue, if there is
    one. *)
Definition sceneEffect (s : State) : State :=
  let first := head (currentQueue s) in
  mkState (heap s) (captureQueueRef s) (capturedPlanesRef s) (captureCountRef s)
          (capturingRef s) (firstCaptureDoneRef s)
          (Some (mkObject first true)) (Some (mkObject first true))
          true true true true
          (instructions s) (captureCount s) (isPanoramaComplete s) (isStable s)
          (thumbnails s) (queueReady s).

(** [setIsStable(stable)], by the motion handler or by its timer. *)
Definition stabilityChange (stable : bool) (s : State) : State :=
  if bool_decide (stable = isStable s) then s
  else sceneEffect (set_isStable stable s).

(** What can happen to the mounted component: the stability effect sets
    [isStable]; the user clicks a button that is rendered and enabled; the
    animation loop runs its auto-capture block; a pending load finishes.
    A button is rendered and enabled according to the state as it is when
    the user clicks: every change of what the two conditions read comes
    with a state update, hence a render, except the [shift] of
    [performCapture], which leaves the in-flight flag set, and under that
    flag the handler of the Capture button does nothing. *)
Inductive step : Config -> Config -> Prop :=
| step_motion (s : State) (pending : list Capture) (stable : bool) :
    step (s, pending) (stabilityChange stable s, pending)
| step_capture (s s' : State) (pending : list Capture)
               (frame : Sharpen.ImageData) (o : Outcome) :
    captureButtonShown s = true -> captureButtonEnabled s = true ->
    captureImage frame s = (s', o) ->
    step (s, pending) (s', pending ++ pendingOf o)
| step_animate (s s' : State) (pending : list Capture)
               (markerCentered : bool) (frame : Sharpen.ImageData) (o : Outcome) :
    animate markerCentered frame s = (s', o) ->
    step (s, pending) (s', pending ++ pendingOf o)
| step_reset (s s' : State) (pending : list Capture) :
    resetButtonShown s = true ->
    resetPanorama s = Some s' ->
    step (s, pending) (s', pending)
| step_loaded (s s' : State) (before after : list Capture) (c : Capture) :
    performCapture_onload c s = Some s' ->
    step (s, before ++ c :: after) (s', before ++ after).

(** The animation loop over a number of frames: the auto-capture block once
    per frame, each with its own [isMarkerCentered] and video frame. *)
Fixpoint animateAll (ticks : list (bool * Sharpen.ImageData)) (s : State) : State :=
  match ticks with
  | [] => s
  | (markerCentered, frame) :: rest =>
      animateAll rest (fst (animate markerCentered frame s))
  end.

End Ui.

(* ===================================================================== *)
(** * Notions the properties are stated with *)
(* ===================================================================== *)

Module Notions.

Import Session.

(** The tile list, the thumbnails and the two counters tell the same
    story: one thumbnail per tile, made of its texture, and both counters
    at the number of tiles. *)
Definition inSync (s : State) : Prop :=
  thumbnails s = texture <$> capturedPlanesRef s /\
  Z.of_nat (length (capturedPlanesRef s)) = captureCountRef s /\
  captureCount s = captureCountRef s.

(** The target two places after position [i] of a plan, if there is one. *)
Definition twoAhead (plan : list CaptureTarget) (i : nat) : list CaptureTarget :=
  option_list (plan !! (i + 2)%nat).

(** How many of the four neighbours of pixel [(x, y)] fall outside the
    image. *)
Definition missingNeighbours (img : Sharpen.ImageData) (x y : Z) : Z :=
  (if x =? 0 then 1 else 0) + (if x =? Sharpen.width img - 1 then 1 else 0) +
  (if y =? 0 then 1 else 0) + (if y =? Sharpen.height img - 1 then 1 else 0).

(** Channel [c] has the value [v] at every pixel of the image. *)
Definition uniformChannel (img : Sharpen.ImageData) (c v : Z) : Prop :=
  forall px py : Z,
    0 <= px < Sharpen.width img -> 0 <= py < Sharpen.height img ->
    Sharpen.channel img px py c = v.

(** Two images of the same size agree on red, green and blue everywhere. *)
Definition sameColours (img img' : Sharpen.ImageData) : Prop :=
  Sharpen.width img = Sharpen.width img' /\
  Sharpen.height img = Sharpen.height img' /\
  forall px py c : Z,
    0 <= px < Sharpen.width img -> 0 <= py < Sharpen.height img -> 0 <= c < 3 ->
    Sharpen.channel img px py c = Sharpen.channel img' px py c.

(** Tiles, thumbnails, counters and the first-capture flag of [s'] are
    those of [s], and the same array is the current queue. *)
Definition sameTiles (s s' : State) : Prop :=
  capturedPlanesRef s' = capturedPlanesRef s /\
  thumbnails s' = thumbnails s /\
  captureCountRef s' = captureCountRef s /\
  captureCount s' = captureCount s /\
  firstCaptureDoneRef s' = firstCaptureDoneRef s /\
  captureQueueRef s' = captureQueueRef s.

(** A session in which nothing has been captured yet. *)
Definition fresh (s : State) : Prop :=
  captureCountRef s = 0 /\ captureCount s = 0 /\
  capturedPlanesRef s = [] /\ firstCaptureDoneRef s = false.

(** The panorama is not complete, and either nothing has been captured,
    the first-capture flag is clear and at most one manual capture is
    loading, or exactly one tile has been captured, the flag is set and
    nothing is loading. *)
Definition oneTileAtMost (cfg : Ui.Config) : Prop :=
  let '(s, pending) := cfg in
  captureCount s = captureCountRef s /\ isPanoramaComplete s = false /\
  ((captureCountRef s = 0 /\ capturedPlanesRef s = [] /\
    firstCaptureDoneRef s = false /\
    (pending = [] \/
     exists c, pending = [c] /\ cIsAuto c = false /\ capturingRef s = true)) \/
   (captureCountRef s = 1 /\ length (capturedPlanesRef s) = 1%nat /\
    firstCaptureDoneRef s = true /\ pending = [])).

(** The tiles captured so far and the targets still queued make up
    [plan], and every tile but the newest carries one pointer, to the
    target two places after its own; the newest carries none. *)
Definition pointersSettled (plan : list CaptureTarget) (s : State) : Prop :=
  (placedAt <$> capturedPlanesRef s) ++ currentQueue s = plan /\
  forall (i : nat) (p : CapturedPlane),
    capturedPlanesRef s !! i = Some p ->
    pointers p = if decide (i + 1 < length (capturedPlanesRef s))%nat
                 then twoAhead plan i else [].

(** The live video plane and the guide marker sit at the head of the
    queue, if the queue has one. *)
Definition markerAtHead (s : State) : Prop :=
  forall target : CaptureTarget,
    head (currentQueue s) = Some target ->
    position <$> videoPlaneRef s = Some (Some target) /\
    position <$> markerRef s = Some (Some target).

(** A value a byte can hold. *)
Definition isByte (v : Z) : Prop := 0 <= v <= 255.

(** While [isStable] is set no timer is pending. *)
Definition timerIdleWhenStable (st : Stability.MotionState) : Prop :=
  Stability.isStable st = true -> Stability.stabilityTimeoutRef st = None.

(** A motion event that carries both objects, none of whose six readings
    the sensor provides: every field is [null]. *)
Definition noReadings : Stability.MotionEvent :=
  Stability.mkEvent (Some (Stability.mkAcc None None None))
                    (Some (Stability.mkRot None None None)).

(** The motion event of a device without motion information:
    [acceleration] and [rotationRate] are [null] themselves. *)
Definition noMotionInfo : Stability.MotionEvent :=
  Stability.mkEvent None None.


(** Every pixel of the image is opaque black. *)
Definition opaqueBlack (img : Sharpen.ImageData) : Prop :=
  forall x y c : Z,
    0 <= x < Sharpen.width img -> 0 <= y < Sharpen.height img -> 0 <= c < 4 ->
    Sharpen.data img !! Z.to_nat (Sharpen.byteOffset img x y + c)
    = Some (if c =? 3 then 255 else 0).

End Notions.

(* ===================================================================== *)
(** * Properties of the coverage planner *)
(* ===================================================================== *)

Section PlannerFacts.

Variable azimuthIncrements : gmap Z Z.

Lemma pushBand_app (n : nat) (i increment elev : Z) (queue : list CaptureTarget) :
  pushBand n i increment elev queue =
  queue ++ map (fun k => mkTarget ((i + Z.of_nat k) * increment) elev) (seq 0 n).
Proof.
  revert i queue. induction n as [|n IH]; intros i queue; simpl.
  - by rewrite app_nil_r.
  - rewrite IH, <- app_assoc. simpl. f_equal.
    rewrite Z.add_0_r. f_equal.
    rewrite <- seq_shift, map_map.
    apply map_ext. intros k. f_equal. f_equal. lia.
Qed.

Lemma pushLevel_app (queue : list CaptureTarget) (elev : Z) :
  pushLevel azimuthIncrements queue elev =
  queue ++ bandPlan (incrementOf azimuthIncrements elev) elev.
Proof.
  unfold pushLevel, bandPlan. rewrite pushBand_app. done.
Qed.

Lemma forEach_pushLevel (levels : list Z) (queue : list CaptureTarget) :
  fold_left (pushLevel azimuthIncrements) levels queue =
  queue ++ coveragePlan levels azimuthIncrements.
Proof.
  revert queue. induction levels as [|elev levels IH]; intros queue; simpl.
  - by rewrite app_nil_r.
  - rewrite IH, pushLevel_app, <- app_assoc. done.
Qed.

Lemma reduce_total (levels : list Z) (total : Z) :
  fold_left
    (fun total elev => total + ceilDiv 360 (incrementOf azimuthIncrements elev))
    levels total =
  total + foldr Z.add 0 (map (bandCount azimuthIncrements) levels).
Proof.
  revert total. induction levels as [|elev levels IH]; intros total; simpl.
  - lia.
  - rewrite IH. unfold bandCount. lia.
Qed.

Lemma ceilDiv_pos (step : Z) : 0 < step -> 0 < ceilDiv 360 step.
Proof.
  intros Hstep. unfold ceilDiv. change (- (360)) with (-360).
  assert (-360 / step < 0); [|lia].
  apply Z.div_lt_upper_bound; lia.
Qed.

Lemma length_bandPlan (step elev : Z) :
  0 < step -> Z.of_nat (length (bandPlan step elev)) = ceilDiv 360 step.
Proof.
  intros Hstep. unfold bandPlan.
  rewrite length_map, length_seq. pose proof (ceilDiv_pos step Hstep). lia.
Qed.

Lemma length_coveragePlan (levels : list Z) :
  Forall (fun elev => 0 < incrementOf azimuthIncrements elev) levels ->
  Z.of_nat (length (coveragePlan levels azimuthIncrements)) =
  maxCaptures levels azimuthIncrements.
Proof.
  intros Hpos. unfold maxCaptures. rewrite reduce_total. simpl.
  induction Hpos as [|elev levels Helev _ IH]; simpl; [done|].
  rewrite length_app, Nat2Z.inj_add, IH, length_bandPlan by done. done.
Qed.

Lemma truncateQueue_fits (fuel : nat) (bound : Z) (queue : list CaptureTarget) :
  Z.of_nat (length queue) <= bound ->
  truncateQueue (S fuel) bound queue = Some queue.
Proof.
  intros Hfit. simpl.
  destruct (Z.gtb_spec (Z.of_nat (length queue)) bound); [lia|done].
Qed.

End PlannerFacts.

(** C1.  With the active bands and steps the bands contribute
    9, 8, 6, 1, 8, 6 and 1 targets, [maxCaptures] is their sum 39, and the
    queue [initializeQueue] stores has 39 elements. *)
Theorem maxCaptures_is_39 :
  map (bandCount Active.azimuthIncrements) Active.elevationLevels
    = [9; 8; 6; 1; 8; 6; 1] /\
  Active.maxCaptures = 9 + 8 + 6 + 1 + 8 + 6 + 1 /\
  Active.maxCaptures = 39 /\
  exists queue,
    initializeQueue Active.elevationLevels Active.azimuthIncrements = Some queue /\
    Z.of_nat (length queue) = Active.maxCaptures /\
    (Session.currentQueue <$> Session.mounted) = Some queue.
Proof.
  repeat split; try (vm_compute; reflexivity).
  eexists. split; [vm_compute; reflexivity|].
  split; vm_compute; reflexivity.
Qed.



(* ===================================================================== *)
(** * Properties of the sharpening filter *)
(* ===================================================================== *)

(** Equality of tuples of integers, component by component. *)
Ltac tuple_eq :=
  repeat match goal with
         | |- (_, _) = (_, _) => apply pair_equal_spec; split
         end; lia.

Section SharpenFacts.

Import Sharpen.

Variable img : ImageData.

Abbreviation idx := (byteOffset img).
Abbreviation pixelValue := (Sharpen.pixelValue img).

Lemma min_max_clamp (v : Z) : Z.min (Z.max v 0) 255 = clamp v.
Proof.
  unfold clamp.
  destruct (Z.ltb_spec v 0); [lia|].
  destruct (Z.ltb_spec 255 v); lia.
Qed.

Lemma kernel_weight (ky kx : Z) :
  0 <= ky < 3 -> 0 <= kx < 3 ->
  kernel !!! Z.to_nat (ky * 3 + kx) = weightAt ky kx.
Proof.
  intros Hky Hkx.
  assert (ky = 0 \/ ky = 1 \/ ky = 2) as [->|[->| ->]] by lia;
    assert (kx = 0 \/ kx = 1 \/ kx = 2) as [->|[->| ->]] by lia;
    reflexivity.
Qed.

Lemma tap_adds (x y ky kx r g b : Z) :
  0 <= ky < 3 -> 0 <= kx < 3 ->
  tap img x y ky (r, g, b) kx =
  (r + tapTerm img x y 0 ky kx,
   g + tapTerm img x y 1 ky kx,
   b + tapTerm img x y 2 ky kx).
Proof.
  intros Hky Hkx. unfold tap, tapTerm, inBounds, channel.
  rewrite kernel_weight by done.
  destruct ((0 <=? x + kx - 1) && (x + kx - 1 <? width img)
            && (0 <=? y + ky - 1) && (y + ky - 1 <? height img)).
  - rewrite Z.add_0_r. tuple_eq.
  - tuple_eq.
Qed.

Lemma kernel_loops (x y : Z) :
  forLoop 3 (fun acc ky => forLoop 3 (tap img x y ky) acc) (0, 0, 0) =
  (convolve img x y 0, convolve img x y 1, convolve img x y 2).
Proof.
  unfold forLoop. change (seqZ 0 3) with [0; 1; 2]. cbn [fold_left].
  rewrite !tap_adds by lia. unfold convolve. tuple_eq.
Qed.

Lemma sharpenPixel_writes (x y : Z) (outData : list Z) :
  sharpenPixel img y outData x =
  <[Z.to_nat (idx x y + 3) := pixelValue x y 3]>
    (<[Z.to_nat (idx x y + 2) := pixelValue x y 2]>
       (<[Z.to_nat (idx x y + 1) := pixelValue x y 1]>
          (<[Z.to_nat (idx x y) := pixelValue x y 0]> outData))).
Proof.
  unfold sharpenPixel. rewrite kernel_loops.
  unfold Sharpen.pixelValue, byteOffset. cbn [Z.eqb]. by rewrite !min_max_clamp.
Qed.

Lemma length_sharpenPixel (x y : Z) (outData : list Z) :
  length (sharpenPixel img y outData x) = length outData.
Proof. rewrite sharpenPixel_writes. by rewrite !length_insert. Qed.

Lemma sharpenPixel_same (x y c : Z) (outData : list Z) :
  0 <= idx x y -> (Z.to_nat (idx x y + 3) < length outData)%nat ->
  0 <= c < 4 ->
  sharpenPixel img y outData x !! Z.to_nat (idx x y + c) = Some (pixelValue x y c).
Proof.
  intros Hidx Hlen Hc. rewrite sharpenPixel_writes.
  assert (c = 0 \/ c = 1 \/ c = 2 \/ c = 3) as [->|[->|[->| ->]]] by lia.
  - rewrite Z.add_0_r.
    rewrite !list_lookup_insert_ne by lia.
    apply list_lookup_insert_eq. lia.
  - rewrite !list_lookup_insert_ne by lia.
    apply list_lookup_insert_eq. rewrite !length_insert. lia.
  - rewrite !list_lookup_insert_ne by lia.
    apply list_lookup_insert_eq. rewrite !length_insert. lia.
  - apply list_lookup_insert_eq. rewrite !length_insert. lia.
Qed.

Lemma sharpenPixel_other (x y : Z) (j : nat) (outData : list Z) :
  (forall c, 0 <= c < 4 -> j <> Z.to_nat (idx x y + c)) ->
  sharpenPixel img y outData x !! j = outData !! j.
Proof.
  intros Hj. rewrite sharpenPixel_writes.
  pose proof (Hj 0) as H0. rewrite Z.add_0_r in H0.
  pose proof (Hj 1). pose proof (Hj 2). pose proof (Hj 3).
  rewrite !list_lookup_insert_ne by lia. done.
Qed.

(** ** The loop over [x] *)

Lemma length_pixels (y : Z) (xs : list Z) (outData : list Z) :
  length (fold_left (sharpenPixel img y) xs outData) = length outData.
Proof.
  revert outData. induction xs as [|x xs IH]; intros outData; simpl; [done|].
  by rewrite IH, length_sharpenPixel.
Qed.

Lemma pixels_other (y : Z) (xs : list Z) (j : nat) (outData : list Z) :
  (forall x c, x ∈ xs -> 0 <= c < 4 -> j <> Z.to_nat (idx x y + c)) ->
  fold_left (sharpenPixel img y) xs outData !! j = outData !! j.
Proof.
  revert outData. induction xs as [|x xs IH]; intros outData Hj; simpl; [done|].
  rewrite IH.
  - apply sharpenPixel_other. intros c Hc. apply Hj; [left|done].
  - intros x' c Hx' Hc. apply Hj; [by right|done].
Qed.

Lemma pixels_same (y : Z) (xs : list Z) (x c : Z) (outData : list Z) :
  0 <= y -> 0 <= width img -> Forall (fun x' => 0 <= x') xs ->
  x ∈ xs -> 0 <= c < 4 ->
  (Z.to_nat (idx x y + 3) < length outData)%nat ->
  fold_left (sharpenPixel img y) xs outData !! Z.to_nat (idx x y + c)
  = Some (pixelValue x y c).
Proof.
  intros Hy Hw Hxs Hx Hc Hlen.
  induction xs as [|x' xs IH] using rev_ind; [by apply elem_of_nil in Hx|].
  apply Forall_app in Hxs as [Hxs Hx'].
  rewrite Forall_singleton in Hx'.
  rewrite fold_left_app. cbn [fold_left].
  assert (0 <= x) as Hx0.
  { apply elem_of_app in Hx as [Hx|Hx].
    - eapply Forall_forall in Hxs; [exact Hxs|exact Hx].
    - apply list_elem_of_singleton in Hx. by subst. }
  assert (0 <= y * width img) by lia.
  destruct (decide (x' = x)) as [->|Hne].
  - apply sharpenPixel_same; [unfold byteOffset; lia| |done].
    by rewrite length_pixels.
  - rewrite sharpenPixel_other.
    + apply IH; [done|].
      apply elem_of_app in Hx as [Hx|Hx]; [done|].
      apply list_elem_of_singleton in Hx. congruence.
    + intros c' Hc'. unfold byteOffset. lia.
Qed.

(** ** The loop over [y] *)

Lemma length_rows (ys : list Z) (outData : list Z) :
  length (fold_left (sharpenRow img) ys outData) = length outData.
Proof.
  revert outData. induction ys as [|y ys IH]; intros outData; simpl; [done|].
  rewrite IH. unfold sharpenRow, forLoop. by rewrite length_pixels.
Qed.

Lemma row_offsets_differ (x y x' y' c c' : Z) :
  0 <= x < width img -> 0 <= x' < width img -> 0 <= y -> 0 <= y' ->
  0 <= c < 4 -> 0 <= c' < 4 -> y <> y' ->
  Z.to_nat (idx x y + c) <> Z.to_nat (idx x' y' + c').
Proof.
  intros Hx Hx' Hy Hy' Hc Hc' Hne. unfold byteOffset.
  assert (0 <= y * width img) by (apply Z.mul_nonneg_nonneg; lia).
  assert (0 <= y' * width img) by (apply Z.mul_nonneg_nonneg; lia).
  assert (y * width img + x <> y' * width img + x'); [|lia].
  destruct (Z.lt_ge_cases y y').
  - assert ((y + 1) * width img <= y' * width img) by (apply Z.mul_le_mono_nonneg_r; lia).
    lia.
  - assert ((y' + 1) * width img <= y * width img) by (apply Z.mul_le_mono_nonneg_r; lia).
    lia.
Qed.

Lemma rows_same (ys : list Z) (x y c : Z) (outData : list Z) :
  Forall (fun y' => 0 <= y') ys -> y ∈ ys ->
  0 <= x < width img -> 0 <= c < 4 ->
  (Z.to_nat (idx x y + 3) < length outData)%nat ->
  fold_left (sharpenRow img) ys outData !! Z.to_nat (idx x y + c)
  = Some (pixelValue x y c).
Proof.
  intros Hys Hy Hx Hc Hlen.
  induction ys as [|y' ys IH] using rev_ind; [by apply elem_of_nil in Hy|].
  apply Forall_app in Hys as [Hys Hy'].
  rewrite Forall_singleton in Hy'.
  rewrite fold_left_app. cbn [fold_left].
  assert (0 <= y) as Hy0.
  { apply elem_of_app in Hy as [Hy|Hy].
    - eapply Forall_forall in Hys; [exact Hys|exact Hy].
    - apply list_elem_of_singleton in Hy. by subst. }
  unfold sharpenRow at 1. unfold forLoop.
  destruct (decide (y' = y)) as [->|Hne].
  - apply pixels_same; try done; try lia.
    + apply Forall_forall. intros x' Hx'. apply elem_of_seqZ in Hx'. lia.
    + apply elem_of_seqZ. lia.
    + by rewrite length_rows.
  - rewrite pixels_other.
    + apply IH; [done|].
      apply elem_of_app in Hy as [Hy|Hy]; [done|].
      apply list_elem_of_singleton in Hy. congruence.
    + intros x' c' Hx' Hc'. apply elem_of_seqZ in Hx'.
      apply row_offsets_differ; try done; try lia.
Qed.

End SharpenFacts.

(** C9.  Every pixel of the sharpened image: each of R, G and B is the
    convolution of that channel with [[0,-1,0],[-1,5,-1],[0,-1,0]], taps
    outside the image contributing zero, clamped to [0, 255]; alpha is 255.
    The size of the image is kept. *)
Theorem sharpenImage_convolves (img : Sharpen.ImageData) (x y : Z) :
  Sharpen.wellFormed img ->
  0 <= x < Sharpen.width img -> 0 <= y < Sharpen.height img ->
  let out := Sharpen.sharpenImage img in
  let idx := (y * Sharpen.width img + x) * 4 in
  Sharpen.width out = Sharpen.width img /\
  Sharpen.height out = Sharpen.height img /\
  length (Sharpen.data out) = length (Sharpen.data img) /\
  (forall c, 0 <= c < 3 ->
     Sharpen.data out !! Z.to_nat (idx + c)
     = Some (Sharpen.clamp (Sharpen.convolve img x y c)) /\
     0 <= Sharpen.clamp (Sharpen.convolve img x y c) <= 255) /\
  Sharpen.data out !! Z.to_nat (idx + 3) = Some 255.
Proof.
  intros (Hw & Hh & Hlen) Hx Hy out idx.
  assert (Hlen0 : length (Sharpen.createImageData (Sharpen.width img) (Sharpen.height img))
                  = length (Sharpen.data img)).
  { unfold Sharpen.createImageData. rewrite length_replicate. lia. }
  assert (Hbound : (Z.to_nat (idx + 3) <
                    length (Sharpen.createImageData (Sharpen.width img) (Sharpen.height img)))%nat).
  { rewrite Hlen0. subst idx.
    assert ((y + 1) * Sharpen.width img <= Sharpen.height img * Sharpen.width img)
      by (apply Z.mul_le_mono_nonneg_r; lia).
    lia. }
  assert (Hlook : forall c, 0 <= c < 4 ->
            Sharpen.data out !! Z.to_nat (idx + c) = Some (Sharpen.pixelValue img x y c)).
  { intros c Hc. subst out idx. unfold Sharpen.sharpenImage, Sharpen.forLoop.
    cbn [Sharpen.data].
    apply rows_same; try done; try lia.
    - apply Forall_forall. intros y' Hy'. apply elem_of_seqZ in Hy'. lia.
    - apply elem_of_seqZ. lia. }
  split; [done|]. split; [done|]. split.
  { subst out. unfold Sharpen.sharpenImage, Sharpen.forLoop. cbn [Sharpen.data].
    by rewrite length_rows. }
  split.
  - intros c Hc. split.
    + rewrite Hlook by lia. unfold Sharpen.pixelValue.
      destruct (Z.eqb_spec c 3); [lia|done].
    + unfold Sharpen.clamp.
      destruct (Z.ltb_spec (Sharpen.convolve img x y c) 0); [lia|].
      destruct (Z.ltb_spec 255 (Sharpen.convolve img x y c)); lia.
  - rewrite Hlook by lia. done.
Qed.

(** The pixel (1, 0) of a 2 x 2 image. *)
Lemma sharpenImage_convolves_witness :
  let img := Sharpen.mkImage 2 2
               [10; 20; 30; 40;  50; 60; 70; 80;
                90; 100; 110; 120;  200; 210; 220; 230] in
  let out := Sharpen.sharpenImage img in
  Sharpen.wellFormed img /\
  Sharpen.width out = 2 /\ Sharpen.height out = 2 /\
  length (Sharpen.data out) = 16%nat /\
  (forall c, 0 <= c < 3 ->
     Sharpen.data out !! Z.to_nat ((0 * 2 + 1) * 4 + c)
     = Some (Sharpen.clamp (Sharpen.convolve img 1 0 c)) /\
     0 <= Sharpen.clamp (Sharpen.convolve img 1 0 c) <= 255) /\
  Sharpen.data out !! Z.to_nat ((0 * 2 + 1) * 4 + 3) = Some 255.
Proof.
  intros img out.
  assert (Hwf : Sharpen.wellFormed img).
  { unfold Sharpen.wellFormed. simpl. lia. }
  split; [exact Hwf|].
  apply (sharpenImage_convolves img 1 0 Hwf); simpl; lia.
Defined.

(* ===================================================================== *)
(** * Properties of the stability detector *)
(* ===================================================================== *)

Section StabilityFacts.

Import Stability.

(** After the handler has run, [isStable] says whether this one sample was
    below the threshold; the state before does not matter. *)
Lemma handleMotion_isStable (now : Z) (event : MotionEvent) (st st' : MotionState) :
  handleMotion now event st = Some st' -> isStable st' = quiet event.
Proof.
  unfold handleMotion, quiet.
  destruct (acceleration event) as [a|], (rotationRate event) as [r|]; try discriminate.
  destruct (belowThreshold (accMagnitude a) && belowThreshold (rotMagnitude r)),
    st as [[] timer]; intros [= <-]; reflexivity.
Qed.

(** The handler returns exactly on the samples that carry both objects. *)
Lemma handleMotion_informative (now : Z) (event : MotionEvent) (st : MotionState) :
  informative event -> is_Some (handleMotion now event st).
Proof.
  intros [[a Ha] [r Hr]]. unfold handleMotion. rewrite Ha, Hr.
  destruct (belowThreshold (accMagnitude a) && belowThreshold (rotMagnitude r)),
    (negb (isStable st)); eauto.
Qed.

Lemma handleMotion_throws (now : Z) (event : MotionEvent) (st : MotionState) :
  ~ informative event -> handleMotion now event st = None.
Proof.
  intros Hnot. unfold handleMotion.
  destruct (acceleration event) as [a|] eqn:Ha, (rotationRate event) as [r|] eqn:Hr;
    try reflexivity.
  destruct Hnot. unfold informative. rewrite Ha, Hr. eauto.
Qed.

Lemma step_isStable (st : MotionState) (now : Z) (event : MotionEvent) :
  informative event -> isStable (step st (now, event)) = quiet event.
Proof.
  intros Hinf. unfold step.
  match goal with |- context [handleMotion now event ?st1] =>
    destruct (handleMotion_informative now event st1 Hinf) as [st2 Hst2];
    rewrite Hst2
  end.
  cbn [default]. case_bool_decide; unfold effectCleanup; cbn [isStable];
    eapply handleMotion_isStable, Hst2.
Qed.

(** The timer can only clear the flag. *)
Lemma timeoutFires_isStable (st : MotionState) :
  isStable (timeoutFires st) = false.
Proof. reflexivity. Qed.

Lemma run_app (st : MotionState) (earlier later : list (Z * MotionEvent)) :
  run st (earlier ++ later) = run (run st earlier) later.
Proof. unfold run. apply fold_left_app. Qed.

Lemma run_isStable (st : MotionState) (samples : list (Z * MotionEvent))
      (now : Z) (event : MotionEvent) :
  informative event ->
  isStable (run st (samples ++ [(now, event)])) = quiet event.
Proof.
  intros Hinf. rewrite run_app. by apply step_isStable.
Qed.

End StabilityFacts.

(** C2.  The first sample of a device at rest sets [isStable] at once: the
    flag is true although the motion has been below the threshold for 0 ms,
    less than [stableDuration]. *)
Theorem isStable_without_dwell :
  let samples := [(0, Stability.atRest)] in
  Stability.isStable Stability.initial = false /\
  Stability.isStable (Stability.run Stability.initial samples) = true /\
  Stability.dwellTime samples = 0 /\
  Stability.dwellTime samples < Stability.stableDuration.
Proof. vm_compute. repeat split. Qed.

(* ===================================================================== *)
(** * Properties of the capture pipeline *)
(* ===================================================================== *)

Section SessionFacts.

Import Session.

Lemma steady_is_mounted : Some steady = set_isStable true <$> mounted.
Proof. vm_compute. reflexivity. Qed.

(** The guard on the refs lets a ready session through. *)
Lemma ready_guard (s : State) :
  ready s ->
  negb (rendererRef s) || negb (sceneRef s) || bool_decide (videoPlaneRef s = None)
  || bool_decide (markerRef s = None) || negb (hiddenCanvasRef s)
  || negb (videoImage s) = false.
Proof.
  intros (-> & -> & -> & -> & [vp ->] & [mk ->]). reflexivity.
Qed.

(** And it stops every session that is not ready. *)
Lemma not_ready_guard (s : State) :
  ~ ready s ->
  negb (rendererRef s) || negb (sceneRef s) || bool_decide (videoPlaneRef s = None)
  || bool_decide (markerRef s = None) || negb (hiddenCanvasRef s)
  || negb (videoImage s) = true.
Proof.
  intros Hnot. unfold ready in Hnot.
  destruct (rendererRef s), (sceneRef s), (hiddenCanvasRef s), (videoImage s),
    (videoPlaneRef s), (markerRef s); try reflexivity.
  exfalso. apply Hnot. repeat split; eauto.
Qed.

Lemma fmap_alter_same {A B : Type} (f : A -> B) (g : A -> A) (l : list A) (i : nat) :
  (forall a, f (g a) = f a) -> f <$> alter g i l = f <$> l.
Proof.
  intros Hfg. revert i. induction l as [|a l IH]; intros [|i]; simpl; try done.
  - by rewrite Hfg.
  - f_equal. apply IH.
Qed.

Lemma onload_effect (c : Capture) (s : State) :
  is_Some (videoPlaneRef s) -> is_Some (markerRef s) ->
  exists s',
    performCapture_onload c s = Some s' /\
    heap s' = heap s /\ captureQueueRef s' = captureQueueRef s /\
    rendererRef s' = rendererRef s /\ sceneRef s' = sceneRef s /\
    hiddenCanvasRef s' = hiddenCanvasRef s /\ videoImage s' = videoImage s /\
    is_Some (videoPlaneRef s') /\ is_Some (markerRef s') /\
    isStable s' = isStable s /\ capturingRef s' = false /\
    placedAt <$> capturedPlanesRef s'
      = (placedAt <$> capturedPlanesRef s) ++ [mkTarget (cAzimuth c) (cElevation c)] /\
    texture <$> capturedPlanesRef s'
      = (texture <$> capturedPlanesRef s) ++ [Sharpen.sharpenImage (cFrame c)] /\
    captureCountRef s' = captureCountRef s + 1 /\
    captureCount s' = captureCountRef s' /\
    (Active.maxCaptures <= captureCountRef s' -> isPanoramaComplete s' = true).
Proof.
  intros [vp Hvp] [mk Hmk].
  destruct s as [heap loc planes count cap first vp0 mk0 rr sc hc vi ins cc pc st th qr].
  cbn in Hvp, Hmk. subst vp0 mk0.
  unfold performCapture_onload, queueAt.
  destruct c as [az el q auto frame]. cbn [cAzimuth cElevation cQueue cIsAuto cFrame].
  set (img := Sharpen.sharpenImage frame).
  destruct (heap !!! q) as [|next tl] eqn:Hq;
    destruct auto; cbv zeta;
    cbn -[img Active.maxCaptures msgCaptured Z.add Z.leb];
    case_bool_decide;
    cbn -[img Active.maxCaptures msgCaptured Z.add Z.leb];
    rewrite ?Hq;
    cbn -[img Active.maxCaptures msgCaptured Z.add Z.leb];
    destruct (Z.leb_spec Active.maxCaptures (count + 1));
    cbn -[img Active.maxCaptures msgCaptured Z.add Z.leb];
    (eexists; split; [reflexivity|]);
    cbn -[img Active.maxCaptures msgCaptured Z.add Z.leb];
    rewrite ?(fmap_alter_same placedAt), ?(fmap_alter_same texture) by done;
    rewrite ?fmap_app;
    repeat split; eauto; lia.
Qed.

(** The call itself, on such a session: it takes the head off the queue
    array and leaves the load pending; nothing else changes but the
    in-flight flag. *)
Lemma performCapture_dequeues (isAuto : bool) (frame : Sharpen.ImageData) (s : State)
      (target : CaptureTarget) (rest : list CaptureTarget) :
  ready s -> isStable s = true -> capturingRef s = false ->
  currentQueue s = target :: rest ->
  exists s1,
    performCapture isAuto frame s
      = (s1, Loading (mkCapture (azimuth target) (elevation target)
                                (captureQueueRef s) isAuto frame)) /\
    heap s1 = <[captureQueueRef s := rest]> (heap s) /\
    captureQueueRef s1 = captureQueueRef s /\
    capturedPlanesRef s1 = capturedPlanesRef s /\
    captureCountRef s1 = captureCountRef s /\
    isStable s1 = true /\ ready s1.
Proof.
  intros Hready Hstable Hidle Hqueue.
  pose proof (ready_guard s Hready) as Hguard.
  destruct s as [heap loc planes count cap first vp mk rr sc hc vi ins cc pc st th qr].
  unfold ready, currentQueue, queueAt in *.
  cbn in Hready, Hstable, Hidle, Hqueue, Hguard. subst cap st.
  unfold performCapture, queueAt. cbn. rewrite Hguard, Hqueue. cbn.
  eexists. split; [reflexivity|]. cbn. done.
Qed.

(** A capture on a ready, steady, idle session with a target at the head
    of the queue: the call dequeues the head, the load handler appends its
    tile and counts it, and the session is ready for the next one. *)
Lemma captureOnce_dequeues (isAuto : bool) (frame : Sharpen.ImageData) (s : State)
      (target : CaptureTarget) (rest : list CaptureTarget) :
  ready s -> isStable s = true -> capturingRef s = false ->
  currentQueue s = target :: rest ->
  exists s',
    captureOnce isAuto frame s = Some s' /\
    currentQueue s' = rest /\
    ready s' /\ isStable s' = true /\ capturingRef s' = false /\
    placedAt <$> capturedPlanesRef s' = (placedAt <$> capturedPlanesRef s) ++ [target] /\
    texture <$> capturedPlanesRef s'
      = (texture <$> capturedPlanesRef s) ++ [Sharpen.sharpenImage frame] /\
    captureCountRef s' = captureCountRef s + 1 /\
    captureCount s' = captureCountRef s' /\
    (Active.maxCaptures <= captureCountRef s' -> isPanoramaComplete s' = true).
Proof.
  intros Hready Hstable Hidle Hqueue.
  assert (Hloc : (captureQueueRef s < length (heap s))%nat).
  { unfold currentQueue, queueAt in Hqueue.
    rewrite list_lookup_total_alt in Hqueue.
    destruct (heap s !! captureQueueRef s) as [q|] eqn:Hlook;
      [by apply lookup_lt_Some in Hlook|done]. }
  destruct (performCapture_dequeues isAuto frame s target rest)
    as (s1 & Hcall & Hheap & Hloc1 & Hplanes & Hcount & Hst1 & Hready1); try done.
  unfold captureOnce. rewrite Hcall.
  destruct Hready1 as (Hrr & Hsc & Hhc & Hvi & Hvp & Hmk).
  destruct (onload_effect
              (mkCapture (azimuth target) (elevation target) (captureQueueRef s) isAuto frame)
              s1 Hvp Hmk)
    as (s' & Hload & Hheap' & Hloc' & Hrr' & Hsc' & Hhc' & Hvi' & Hvp' & Hmk'
        & Hst' & Hcap' & Hplaced & Htex & Hcnt & Hcc & Hdone).
  exists s'. cbn [cAzimuth cElevation cFrame] in *.
  split; [done|]. split.
  { unfold currentQueue, queueAt. rewrite Hloc', Hheap', Hloc1, Hheap.
    by apply list_lookup_total_insert_eq. }
  split; [unfold ready; by rewrite Hrr', Hsc', Hhc', Hvi'|].
  split; [congruence|]. split; [done|].
  split; [rewrite Hplaced, Hplanes; by destruct target|].
  split; [by rewrite Htex, Hplanes|].
  split; [lia|]. split; [done|]. done.
Qed.

(** The same call when the queue is empty: completion is recorded and
    the promise is resolved at once; no target is returned and nothing is
    raised. *)
Lemma performCapture_empty (isAuto : bool) (frame : Sharpen.ImageData) (s : State) :
  ready s -> isStable s = true -> capturingRef s = false ->
  currentQueue s = [] ->
  exists s',
    performCapture isAuto frame s = (s', Resolved) /\
    currentQueue s' = [] /\
    capturedPlanesRef s' = capturedPlanesRef s /\
    captureCountRef s' = captureCountRef s /\
    capturingRef s' = false /\
    isPanoramaComplete s' = true.
Proof.
  intros Hready Hstable Hidle Hqueue.
  pose proof (ready_guard s Hready) as Hguard.
  destruct s as [heap loc planes count cap first vp mk rr sc hc vi ins cc pc st th qr].
  unfold ready, currentQueue, queueAt in *.
  cbn in Hready, Hstable, Hidle, Hqueue, Hguard. subst cap st.
  unfold performCapture, queueAt. cbn. rewrite Hguard, Hqueue. cbn.
  eexists. split; [reflexivity|]. cbn. done.
Qed.

(** Captures in a row, as many as the queue holds, drain it in order. *)
Lemma captureAll_drains (inputs : list (bool * Sharpen.ImageData)) (s : State) :
  ready s -> isStable s = true -> capturingRef s = false ->
  length inputs = length (currentQueue s) ->
  exists s',
    captureAll inputs s = Some s' /\
    currentQueue s' = [] /\
    ready s' /\ isStable s' = true /\ capturingRef s' = false /\
    placedAt <$> capturedPlanesRef s'
      = (placedAt <$> capturedPlanesRef s) ++ currentQueue s /\
    captureCountRef s' = captureCountRef s + Z.of_nat (length inputs) /\
    (inputs <> [] -> Active.maxCaptures <= captureCountRef s' ->
     isPanoramaComplete s' = true).
Proof.
  revert s. induction inputs as [|[isAuto frame] inputs IH];
    intros s Hready Hstable Hidle Hlen.
  - exists s. destruct (currentQueue s) eqn:Hq; [|done].
    cbn. rewrite app_nil_r.
    repeat (split; [first [done|lia]|]). intros Hne. by destruct Hne.
  - destruct (currentQueue s) as [|target rest] eqn:Hq; [done|].
    destruct (captureOnce_dequeues isAuto frame s target rest)
      as (s1 & Hone & Hq1 & Hready1 & Hst1 & Hidle1 & Hplaced1 & _ & Hcnt1 & _ & Hdone1);
      try done.
    destruct (IH s1) as (s' & Hall & Hq' & Hready' & Hst' & Hidle' & Hplaced' & Hcnt' & Hdone');
      try done.
    { rewrite Hq1. cbn in Hlen. lia. }
    exists s'. cbn [captureAll]. rewrite Hone. cbn.
    split; [done|]. split; [done|]. split; [done|]. split; [done|]. split; [done|].
    split; [by rewrite Hplaced', Hplaced1, Hq1, <- app_assoc|].
    split; [rewrite Hcnt', Hcnt1; cbn [length]; lia|].
    intros _ Hmax. destruct inputs as [|input inputs].
    + cbn in Hall. injection Hall as <-. by apply Hdone1.
    + by apply Hdone'.
Qed.

(** Once the counter has reached [maxCaptures], neither trigger does
    anything. *)
Lemma triggers_closed (centered : bool) (frame : Sharpen.ImageData) (s : State) :
  Active.maxCaptures <= captureCountRef s ->
  animate centered frame s = (s, Resolved) /\ captureImage frame s = (s, Resolved).
Proof.
  intros Hmax. unfold animate, captureImage.
  destruct (Z.ltb_spec (captureCountRef s) Active.maxCaptures); [lia|].
  by rewrite !andb_false_r.
Qed.

Lemma resetQueue_active :
  resetQueue Active.elevationLevels Active.azimuthIncrements
  = Some (coveragePlan Active.elevationLevels Active.azimuthIncrements).
Proof. vm_compute. reflexivity. Qed.

(** [resetPanorama] on a session whose scene exists. *)
Lemma resetPanorama_effect (s : State) :
  sceneRef s = true -> is_Some (videoPlaneRef s) -> is_Some (markerRef s) ->
  exists s',
    resetPanorama s = Some s' /\
    currentQueue s' = coveragePlan Active.elevationLevels Active.azimuthIncrements /\
    capturedPlanesRef s' = [] /\ thumbnails s' = [] /\
    captureCountRef s' = 0 /\ captureCount s' = 0 /\
    capturingRef s' = false /\ firstCaptureDoneRef s' = false /\
    isPanoramaComplete s' = false /\
    is_Some (videoPlaneRef s') /\ is_Some (markerRef s') /\
    isStable s' = isStable s.
Proof.
  intros Hscene [vp Hvp] [mk Hmk].
  destruct s as [heap loc planes count cap first vp0 mk0 rr sc hc vi ins cc pc st th qr].
  cbn in Hscene, Hvp, Hmk. subst sc vp0 mk0.
  unfold resetPanorama. cbn -[resetQueue]. rewrite resetQueue_active.
  unfold currentQueue, queueAt. cbn -[coveragePlan].
  assert (Hnew : (heap ++ [coveragePlan Active.elevationLevels Active.azimuthIncrements])
                   !!! length heap
                 = coveragePlan Active.elevationLevels Active.azimuthIncrements).
  { rewrite lookup_total_app_r by done. by rewrite Nat.sub_diag. }
  rewrite Hnew.
  destruct (coveragePlan Active.elevationLevels Active.azimuthIncrements) eqn:Hplan;
    (eexists; split; [reflexivity|]); cbn; rewrite ?Hnew; repeat split; eauto.
Qed.

(** A call that has left a load pending went through all the guards. *)
Lemma performCapture_loading (isAuto : bool) (frame : Sharpen.ImageData)
      (s s1 : State) (c : Capture) :
  performCapture isAuto frame s = (s1, Loading c) ->
  ready s1 /\ capturingRef s1 = true /\ cFrame c = frame /\ cIsAuto c = isAuto /\
  head (currentQueue s) = Some (mkTarget (cAzimuth c) (cElevation c)).
Proof.
  destruct s as [heap loc planes count cap first vp mk rr sc hc vi ins cc pc st th qr].
  unfold performCapture, currentQueue, queueAt, ready. cbn.
  destruct st; cbn; [|done].
  destruct cap; cbn; [done|].
  destruct rr, sc, hc, vi, vp as [vp|], mk as [mk|]; cbn; try done.
  case_bool_decide; [done|].
  destruct (heap !!! loc) as [|[az el] rest]; [done|].
  intros [= <- <-]. cbn. repeat split; eauto.
Qed.

(** The auto-capture block sets [capturingRef] before it calls
    [performCapture], which therefore returns at its in-flight guard; the
    callback of [.then] clears the flag again.  The block never dequeues. *)
Lemma animate_is_identity (markerCentered : bool) (frame : Sharpen.ImageData) (s : State) :
  animate markerCentered frame s = (s, Resolved).
Proof.
  destruct s as [heap loc planes count cap first vp mk rr sc hc vi ins cc pc st th qr].
  unfold animate, performCapture. cbn -[Z.ltb Active.maxCaptures].
  destruct first, cap, (count <? Active.maxCaptures), markerCentered, st; reflexivity.
Qed.

End SessionFacts.

(** C5.  On a ready, steady, idle session whose queue holds N targets, N
    captures in a row dequeue and place exactly those targets, in the order
    of the queue, and count N; the next call finds the queue empty, returns
    an already resolved promise with no target and nothing raised, and
    leaves tiles and counter as they are. *)
Theorem captures_follow_queue_order
        (inputs : list (bool * Sharpen.ImageData)) (s : Session.State) :
  Session.ready s -> Session.isStable s = true -> Session.capturingRef s = false ->
  length inputs = length (Session.currentQueue s) ->
  exists s',
    Session.captureAll inputs s = Some s' /\
    Session.placedAt <$> Session.capturedPlanesRef s'
      = (Session.placedAt <$> Session.capturedPlanesRef s) ++ Session.currentQueue s /\
    Session.currentQueue s' = [] /\
    Session.captureCountRef s'
      = Session.captureCountRef s + Z.of_nat (length (Session.currentQueue s)) /\
    forall (isAuto : bool) (frame : Sharpen.ImageData),
    exists s'',
      Session.performCapture isAuto frame s' = (s'', Session.Resolved) /\
      Session.currentQueue s'' = [] /\
      Session.capturedPlanesRef s'' = Session.capturedPlanesRef s' /\
      Session.captureCountRef s'' = Session.captureCountRef s'.
Proof.
  intros Hready Hstable Hidle Hlen.
  destruct (captureAll_drains inputs s Hready Hstable Hidle Hlen)
    as (s' & Hall & Hq & Hready' & Hst' & Hidle' & Hplaced & Hcnt & _).
  exists s'. split; [done|]. split; [done|]. split; [done|].
  split; [by rewrite Hcnt, Hlen|].
  intros isAuto frame.
  destruct (performCapture_empty isAuto frame s' Hready' Hst' Hidle' Hq)
    as (s'' & Hcall & Hq'' & Hplanes & Hcount & _).
  by exists s''.
Qed.

(** Thirty-nine captures on the mounted session, device steady. *)
Lemma captures_follow_queue_order_witness :
  let inputs := replicate 39 (true, Session.onePixel) in
  Session.ready Session.steady /\
  Session.isStable Session.steady = true /\
  Session.capturingRef Session.steady = false /\
  length inputs = length (Session.currentQueue Session.steady) /\
  exists s',
    Session.captureAll inputs Session.steady = Some s' /\
    Session.placedAt <$> Session.capturedPlanesRef s'
      = (Session.placedAt <$> Session.capturedPlanesRef Session.steady)
          ++ Session.currentQueue Session.steady /\
    Session.currentQueue s' = [] /\
    Session.captureCountRef s'
      = Session.captureCountRef Session.steady
        + Z.of_nat (length (Session.currentQueue Session.steady)) /\
    forall (isAuto : bool) (frame : Sharpen.ImageData),
    exists s'',
      Session.performCapture isAuto frame s' = (s'', Session.Resolved) /\
      Session.currentQueue s'' = [] /\
      Session.capturedPlanesRef s'' = Session.capturedPlanesRef s' /\
      Session.captureCountRef s'' = Session.captureCountRef s'.
Proof.
  intros inputs.
  assert (Hready : Session.ready Session.steady).
  { unfold Session.ready. simpl. repeat split; eauto. }
  assert (Hlen : length inputs = length (Session.currentQueue Session.steady)).
  { vm_compute. reflexivity. }
  split; [exact Hready|]. split; [reflexivity|]. split; [reflexivity|].
  split; [exact Hlen|].
  exact (captures_follow_queue_order inputs Session.steady Hready eq_refl eq_refl Hlen).
Defined.

(** The one return between the in-flight test and the dequeue is the
    null test of the refs (renderer, scene, video plane, marker, hidden
    canvas, video image): there a call on an idle session resolves with the
    queue, the counters and the tile list unchanged. *)
Lemma performCapture_null_ref
      (isAuto : bool) (frame : Sharpen.ImageData) (s : Session.State) :
  ~ Session.ready s -> Session.capturingRef s = false ->
  exists s',
    Session.performCapture isAuto frame s = (s', Session.Resolved) /\
    Session.heap s' = Session.heap s /\
    Session.currentQueue s' = Session.currentQueue s /\
    Session.captureCountRef s' = Session.captureCountRef s /\
    Session.captureCount s' = Session.captureCount s /\
    Session.capturedPlanesRef s' = Session.capturedPlanesRef s /\
    Session.thumbnails s' = Session.thumbnails s /\
    Session.capturingRef s' = false /\
    (Session.isStable s = true -> s' = s).
Proof.
  intros Hnot Hidle.
  pose proof (not_ready_guard s Hnot) as Hguard.
  destruct s as [heap loc planes count cap first vp mk rr sc hc vi ins cc pc st th qr].
  cbn in Hidle, Hguard. subst cap.
  unfold Session.performCapture. cbn. rewrite Hguard.
  destruct st; cbn; eexists; (split; [reflexivity|]); cbn; repeat split; done.
Qed.

(** C7.  While [capturingRef] is set, the Capture button handler and the
    auto-capture test of the animation loop leave the whole state as it
    is, message included, and raise nothing; [performCapture] itself
    returns at its in-flight guard with the state untouched when the device
    is steady, and in any case changes nothing but the message. *)
Theorem trigger_in_flight_is_ignored
        (markerCentered isAuto : bool) (frame : Sharpen.ImageData) (s : Session.State) :
  Session.capturingRef s = true ->
  Session.captureImage frame s = (s, Session.Resolved) /\
  Session.animate markerCentered frame s = (s, Session.Resolved) /\
  exists s',
    Session.performCapture isAuto frame s = (s', Session.Resolved) /\
    Session.onlyInstructions s s' /\
    (Session.isStable s = true -> s' = s).
Proof.
  intros Hflight.
  destruct s as [heap loc planes count cap first vp mk rr sc hc vi ins cc pc st th qr].
  cbn in Hflight. subst cap.
  unfold Session.captureImage, Session.animate, Session.performCapture,
    Session.onlyInstructions.
  cbn. rewrite andb_false_r. cbn.
  split; [done|]. split; [done|].
  destruct st; cbn; eexists; (split; [reflexivity|]); cbn; split; done.
Qed.

(** Triggers that arrive while the first capture is loading. *)
Lemma trigger_in_flight_is_ignored_witness :
  Session.capturingRef Session.inFlight = true /\
  Session.captureImage Session.onePixel Session.inFlight
    = (Session.inFlight, Session.Resolved) /\
  Session.animate true Session.onePixel Session.inFlight
    = (Session.inFlight, Session.Resolved) /\
  exists s',
    Session.performCapture true Session.onePixel Session.inFlight
      = (s', Session.Resolved) /\
    Session.onlyInstructions Session.inFlight s' /\
    (Session.isStable Session.inFlight = true -> s' = Session.inFlight).
Proof.
  assert (Hflight : Session.capturingRef Session.inFlight = true).
  { vm_compute. reflexivity. }
  split; [exact Hflight|].
  exact (trigger_in_flight_is_ignored true true Session.onePixel Session.inFlight Hflight).
Defined.

(** C8.  On a session whose counter and queue add up to [maxCaptures],
    capturing every target that is left empties the queue, brings the
    counter to [maxCaptures] and sets [isPanoramaComplete].  From then on
    the auto-capture test of the animation loop, and the Capture button,
    leave the state exactly as it is; [resetPanorama] clears the flag and
    the counter and installs the plan again. *)
Theorem completion_is_terminal
        (inputs : list (bool * Sharpen.ImageData)) (s : Session.State) :
  Session.ready s -> Session.isStable s = true -> Session.capturingRef s = false ->
  inputs <> [] ->
  length inputs = length (Session.currentQueue s) ->
  Session.captureCountRef s + Z.of_nat (length (Session.currentQueue s))
    = Active.maxCaptures ->
  exists s',
    Session.captureAll inputs s = Some s' /\
    Session.currentQueue s' = [] /\
    Session.captureCountRef s' = Active.maxCaptures /\
    Session.isPanoramaComplete s' = true /\
    (forall (markerCentered : bool) (frame : Sharpen.ImageData),
        Session.animate markerCentered frame s' = (s', Session.Resolved)) /\
    (forall frame : Sharpen.ImageData,
        Session.captureImage frame s' = (s', Session.Resolved)) /\
    exists s'',
      Session.resetPanorama s' = Some s'' /\
      Session.isPanoramaComplete s'' = false /\
      Session.captureCountRef s'' = 0 /\
      Session.currentQueue s''
        = coveragePlan Active.elevationLevels Active.azimuthIncrements.
Proof.
  intros Hready Hstable Hidle Hne Hlen Htotal.
  destruct (captureAll_drains inputs s Hready Hstable Hidle Hlen)
    as (s' & Hall & Hq & Hready' & Hst' & Hidle' & _ & Hcnt & Hdone).
  assert (Hmax : Session.captureCountRef s' = Active.maxCaptures) by (rewrite Hcnt, Hlen; lia).
  exists s'. split; [done|]. split; [done|]. split; [done|].
  split; [apply Hdone; [done|lia]|].
  split; [intros markerCentered frame; apply triggers_closed; lia|].
  split; [intros frame; apply (triggers_closed true); lia|].
  destruct Hready' as (_ & Hscene & _ & _ & Hvp & Hmk).
  destruct (resetPanorama_effect s' Hscene Hvp Hmk)
    as (s'' & Hreset & Hq'' & _ & _ & Hcnt'' & _ & _ & _ & Hflag & _).
  by exists s''.
Qed.

(** One manual capture and thirty-eight more drain the mounted session. *)
Lemma completion_is_terminal_witness :
  let inputs := (false, Session.onePixel) :: replicate 38 (true, Session.onePixel) in
  Session.ready Session.steady /\
  inputs <> [] /\
  length inputs = length (Session.currentQueue Session.steady) /\
  Session.captureCountRef Session.steady
    + Z.of_nat (length (Session.currentQueue Session.steady)) = Active.maxCaptures /\
  exists s',
    Session.captureAll inputs Session.steady = Some s' /\
    Session.currentQueue s' = [] /\
    Session.captureCountRef s' = Active.maxCaptures /\
    Session.isPanoramaComplete s' = true /\
    (forall (markerCentered : bool) (frame : Sharpen.ImageData),
        Session.animate markerCentered frame s' = (s', Session.Resolved)) /\
    (forall frame : Sharpen.ImageData,
        Session.captureImage frame s' = (s', Session.Resolved)) /\
    exists s'',
      Session.resetPanorama s' = Some s'' /\
      Session.isPanoramaComplete s'' = false /\
      Session.captureCountRef s'' = 0 /\
      Session.currentQueue s''
        = coveragePlan Active.elevationLevels Active.azimuthIncrements.
Proof.
  intros inputs.
  assert (Hready : Session.ready Session.steady).
  { unfold Session.ready. simpl. repeat split; eauto. }
  assert (Hne : inputs <> []) by discriminate.
  assert (Hlen : length inputs = length (Session.currentQueue Session.steady)).
  { vm_compute. reflexivity. }
  assert (Htotal : Session.captureCountRef Session.steady
                   + Z.of_nat (length (Session.currentQueue Session.steady))
                   = Active.maxCaptures).
  { vm_compute. reflexivity. }
  split; [exact Hready|]. split; [exact Hne|]. split; [exact Hlen|].
  split; [exact Htotal|].
  exact (completion_is_terminal inputs Session.steady Hready eq_refl eq_refl
                                Hne Hlen Htotal).
Defined.

(** C10.  When [isStable] is false [performCapture] returns a resolved
    promise at its first test, manual or automatic: only the instruction
    message is set; the queue, the tile list, the thumbnails, the counters
    and the flags are what they were.  The Capture button handler can do no
    more than that, and the auto-capture test does nothing. *)
Theorem unstable_capture_is_rejected
        (isAuto markerCentered : bool) (frame : Sharpen.ImageData) (s : Session.State) :
  Session.isStable s = false ->
  let s' := Session.set_instructions Session.msgMoving s in
  Session.performCapture isAuto frame s = (s', Session.Resolved) /\
  Session.heap s' = Session.heap s /\
  Session.currentQueue s' = Session.currentQueue s /\
  Session.capturedPlanesRef s' = Session.capturedPlanesRef s /\
  Session.thumbnails s' = Session.thumbnails s /\
  Session.captureCountRef s' = Session.captureCountRef s /\
  Session.captureCount s' = Session.captureCount s /\
  Session.capturingRef s' = Session.capturingRef s /\
  Session.firstCaptureDoneRef s' = Session.firstCaptureDoneRef s /\
  Session.isPanoramaComplete s' = Session.isPanoramaComplete s /\
  (Session.captureImage frame s = (s', Session.Resolved) \/
   Session.captureImage frame s = (s, Session.Resolved)) /\
  Session.animate markerCentered frame s = (s, Session.Resolved).
Proof.
  intros Hmoving s'. subst s'.
  destruct s as [heap loc planes count cap first vp mk rr sc hc vi ins cc pc st th qr].
  cbn in Hmoving. subst st.
  unfold Session.captureImage, Session.animate, Session.performCapture.
  cbn -[Z.ltb Active.maxCaptures].
  repeat (split; [done|]). split.
  - destruct (negb cap && (count <? Active.maxCaptures)); [by left|by right].
  - by rewrite andb_false_r.
Qed.

(** The first manual capture while the device moves. *)
Lemma unstable_capture_is_rejected_witness :
  let s' := Session.set_instructions Session.msgMoving Session.moving in
  Session.isStable Session.moving = false /\
  Session.performCapture false Session.onePixel Session.moving = (s', Session.Resolved) /\
  Session.heap s' = Session.heap Session.moving /\
  Session.currentQueue s' = Session.currentQueue Session.moving /\
  Session.capturedPlanesRef s' = Session.capturedPlanesRef Session.moving /\
  Session.thumbnails s' = Session.thumbnails Session.moving /\
  Session.captureCountRef s' = Session.captureCountRef Session.moving /\
  Session.captureCount s' = Session.captureCount Session.moving /\
  Session.capturingRef s' = Session.capturingRef Session.moving /\
  Session.firstCaptureDoneRef s' = Session.firstCaptureDoneRef Session.moving /\
  Session.isPanoramaComplete s' = Session.isPanoramaComplete Session.moving /\
  (Session.captureImage Session.onePixel Session.moving = (s', Session.Resolved) \/
   Session.captureImage Session.onePixel Session.moving
     = (Session.moving, Session.Resolved)) /\
  Session.animate true Session.onePixel Session.moving
    = (Session.moving, Session.Resolved).
Proof.
  intros s'.
  assert (Hmoving : Session.isStable Session.moving = false) by reflexivity.
  split; [exact Hmoving|].
  exact (unstable_capture_is_rejected false true Session.onePixel Session.moving Hmoving).
Defined.

(* ===================================================================== *)
(** * Further properties of the coverage planner *)
(* ===================================================================== *)

Section PlannerMore.

Variable azimuthIncrements : gmap Z Z.

(** With positive steps nothing is trimmed. *)
Lemma initializeQueue_positive (levels : list Z) :
  Forall (fun elev => 0 < incrementOf azimuthIncrements elev) levels ->
  initializeQueue levels azimuthIncrements
  = Some (coveragePlan levels azimuthIncrements).
Proof.
  intros Hpos. unfold initializeQueue.
  rewrite forEach_pushLevel. simpl app.
  apply truncateQueue_fits.
  rewrite (length_coveragePlan azimuthIncrements levels Hpos). lia.
Qed.

(** The last index of a band stays short of a full turn. *)
Lemma last_index_below_turn (step i : Z) :
  0 < step -> 0 <= i < ceilDiv 360 step -> 0 <= i * step < 360.
Proof.
  intros Hstep [Hi Hlt]. unfold ceilDiv in Hlt. change (- (360)) with (-360) in Hlt.
  pose proof (Z.mul_succ_div_gt (-360) step Hstep) as Hfloor.
  split; [apply Z.mul_nonneg_nonneg; lia|].
  assert (i * step <= (- (-360 / step) - 1) * step)
    by (apply Z.mul_le_mono_nonneg_r; lia).
  lia.
Qed.

Lemma elem_of_bandPlan (step elev : Z) (t : CaptureTarget) :
  t ∈ bandPlan step elev <->
  exists i, 0 <= i < Z.max 0 (ceilDiv 360 step) /\ t = mkTarget (i * step) elev.
Proof.
  unfold bandPlan. rewrite list_elem_of_In, in_map_iff. split.
  - intros (n & <- & Hn). apply in_seq in Hn. exists (Z.of_nat n). split; [lia|done].
  - intros (i & Hi & ->). exists (Z.to_nat i). split.
    + rewrite Z2Nat.id by lia. done.
    + apply in_seq. lia.
Qed.

Lemma elem_of_coveragePlan (levels : list Z) (t : CaptureTarget) :
  t ∈ coveragePlan levels azimuthIncrements <->
  exists elev, elev ∈ levels /\ t ∈ bandPlan (incrementOf azimuthIncrements elev) elev.
Proof.
  unfold coveragePlan. rewrite list_elem_of_In, in_flat_map.
  split; intros (elev & Helev & Ht); exists elev;
    rewrite ?list_elem_of_In in *; done.
Qed.

Lemma NoDup_bandPlan (step elev : Z) : 0 < step -> NoDup (bandPlan step elev).
Proof.
  intros Hstep. unfold bandPlan. apply NoDup_fmap_2_strong; [|apply NoDup_seq].
  intros i j _ _ [= Heq]. nia.
Qed.

Lemma NoDup_coveragePlan (levels : list Z) :
  Forall (fun elev => 0 < incrementOf azimuthIncrements elev) levels ->
  NoDup levels -> NoDup (coveragePlan levels azimuthIncrements).
Proof.
  intros Hpos Hnd. induction Hnd as [|elev levels Hnotin Hnd IH]; [constructor|].
  apply Forall_cons in Hpos as [Hstep Hpos].
  cbn [coveragePlan flat_map]. apply NoDup_app. split; [by apply NoDup_bandPlan|].
  split; [|by apply IH].
  intros t Hband Hrest.
  apply elem_of_bandPlan in Hband as (i & _ & ->).
  apply elem_of_coveragePlan in Hrest as (elev' & Helev' & Ht).
  apply elem_of_bandPlan in Ht as (j & _ & [= _ ->]). done.
Qed.

(** The trimming loop with a bound that is not negative keeps the first
    [bound] elements. *)
Lemma truncateQueue_take (fuel : nat) (bound : Z) (queue : list CaptureTarget) :
  0 <= bound -> (length queue < fuel)%nat ->
  truncateQueue fuel bound queue = Some (take (Z.to_nat bound) queue).
Proof.
  intros Hbound. revert queue.
  induction fuel as [|fuel IH]; intros queue Hfuel; [lia|].
  cbn [truncateQueue].
  destruct (Z.gtb_spec (Z.of_nat (length queue)) bound) as [Hlong|Hfits].
  - rewrite IH.
    + rewrite removelast_firstn_len. change firstn with (@take CaptureTarget).
      rewrite take_take. f_equal. f_equal. lia.
    + rewrite removelast_firstn_len, length_firstn. lia.
  - by rewrite take_ge by lia.
Qed.

(** With a negative bound it never ends. *)
Lemma truncateQueue_negative (fuel : nat) (bound : Z) (queue : list CaptureTarget) :
  bound < 0 -> truncateQueue fuel bound queue = None.
Proof.
  intros Hbound. revert queue. induction fuel as [|fuel IH]; intros queue; [done|].
  cbn [truncateQueue].
  destruct (Z.gtb_spec (Z.of_nat (length queue)) bound); [apply IH|lia].
Qed.

End PlannerMore.

(** X1.  With positive steps every target of the queue lies in one of the
    bands, at a non-negative multiple of the band's step that is below 360:
    the azimuth [i * step] never reaches a full turn although it is not
    reduced modulo 360. *)
Theorem queue_azimuths_below_full_turn
        (elevationLevels : list Z) (azimuthIncrements : gmap Z Z)
        (queue : list CaptureTarget) (target : CaptureTarget) :
  Forall (fun elev => 0 < incrementOf azimuthIncrements elev) elevationLevels ->
  initializeQueue elevationLevels azimuthIncrements = Some queue ->
  target ∈ queue ->
  elevation target ∈ elevationLevels /\
  0 <= azimuth target < 360 /\
  exists i, 0 <= i < bandCount azimuthIncrements (elevation target) /\
            azimuth target = i * incrementOf azimuthIncrements (elevation target).
Proof.
  intros Hpos Hinit Hin.
  rewrite initializeQueue_positive in Hinit by done. injection Hinit as <-.
  apply elem_of_coveragePlan in Hin as (elev & Helev & Hband).
  apply elem_of_bandPlan in Hband as (i & Hi & ->). cbn [elevation azimuth].
  assert (0 < incrementOf azimuthIncrements elev) as Hstep.
  { eapply Forall_forall in Hpos; [exact Hpos|done]. }
  pose proof (ceilDiv_pos _ Hstep).
  split; [done|]. split.
  - apply last_index_below_turn; [done|lia].
  - exists i. unfold bandCount. split; [lia|done].
Qed.

(** The last target of the equator band of the active tables. *)
Lemma queue_azimuths_below_full_turn_witness :
  let queue := coveragePlan Active.elevationLevels Active.azimuthIncrements in
  Forall (fun elev => 0 < incrementOf Active.azimuthIncrements elev)
         Active.elevationLevels /\
  initializeQueue Active.elevationLevels Active.azimuthIncrements = Some queue /\
  mkTarget 320 0 ∈ queue /\
  elevation (mkTarget 320 0) ∈ Active.elevationLevels /\
  0 <= azimuth (mkTarget 320 0) < 360 /\
  exists i, 0 <= i < bandCount Active.azimuthIncrements (elevation (mkTarget 320 0)) /\
            azimuth (mkTarget 320 0)
            = i * incrementOf Active.azimuthIncrements (elevation (mkTarget 320 0)).
Proof.
  intros queue.
  assert (Hpos : Forall (fun elev => 0 < incrementOf Active.azimuthIncrements elev)
                        Active.elevationLevels).
  { unfold Active.elevationLevels. repeat constructor. }
  assert (Hinit : initializeQueue Active.elevationLevels Active.azimuthIncrements
                  = Some queue) by (vm_compute; reflexivity).
  assert (Hin : mkTarget 320 0 ∈ queue).
  { apply list_elem_of_In. vm_compute. tauto. }
  split; [exact Hpos|]. split; [exact Hinit|]. split; [exact Hin|].
  exact (queue_azimuths_below_full_turn Active.elevationLevels Active.azimuthIncrements
           queue (mkTarget 320 0) Hpos Hinit Hin).
Defined.

(** X2.  With positive steps and no band listed twice, no two targets of
    the queue coincide. *)
Theorem queue_has_no_duplicates
        (elevationLevels : list Z) (azimuthIncrements : gmap Z Z)
        (queue : list CaptureTarget) :
  Forall (fun elev => 0 < incrementOf azimuthIncrements elev) elevationLevels ->
  NoDup elevationLevels ->
  initializeQueue elevationLevels azimuthIncrements = Some queue ->
  NoDup queue.
Proof.
  intros Hpos Hnd Hinit.
  rewrite initializeQueue_positive in Hinit by done. injection Hinit as <-.
  by apply NoDup_coveragePlan.
Qed.

(** The active tables. *)
Lemma queue_has_no_duplicates_witness :
  Forall (fun elev => 0 < incrementOf Active.azimuthIncrements elev)
         Active.elevationLevels /\
  NoDup Active.elevationLevels /\
  initializeQueue Active.elevationLevels Active.azimuthIncrements
    = Some (coveragePlan Active.elevationLevels Active.azimuthIncrements) /\
  NoDup (coveragePlan Active.elevationLevels Active.azimuthIncrements).
Proof.
  assert (Hpos : Forall (fun elev => 0 < incrementOf Active.azimuthIncrements elev)
                        Active.elevationLevels).
  { unfold Active.elevationLevels. repeat constructor. }
  assert (Hnd : NoDup Active.elevationLevels).
  { apply (bool_decide_unpack (NoDup Active.elevationLevels)). vm_compute. exact I. }
  assert (Hinit : initializeQueue Active.elevationLevels Active.azimuthIncrements
                  = Some (coveragePlan Active.elevationLevels Active.azimuthIncrements))
    by (vm_compute; reflexivity).
  split; [exact Hpos|]. split; [exact Hnd|]. split; [exact Hinit|].
  exact (queue_has_no_duplicates Active.elevationLevels Active.azimuthIncrements
           _ Hpos Hnd Hinit).
Defined.

(** X3.  A band that has no entry in the step table, or the entry 0, is
    given the step 60: [forEach] pushes six targets for it, at azimuths
    0, 60, ..., 300, and it counts six towards [maxCaptures]. *)
Theorem missing_step_defaults_to_60
        (azimuthIncrements : gmap Z Z) (elev : Z) (queue : list CaptureTarget) :
  azimuthIncrements !! elev = None \/ azimuthIncrements !! elev = Some 0 ->
  pushLevel azimuthIncrements queue elev
  = queue ++ [mkTarget 0 elev; mkTarget 60 elev; mkTarget 120 elev;
              mkTarget 180 elev; mkTarget 240 elev; mkTarget 300 elev] /\
  bandCount azimuthIncrements elev = 6.
Proof.
  intros Hmissing.
  assert (incrementOf azimuthIncrements elev = 60) as Hstep.
  { unfold incrementOf. by destruct Hmissing as [-> | ->]. }
  unfold pushLevel, bandCount. rewrite Hstep, pushBand_app.
  split; reflexivity.
Qed.

(** The band 45 is not in the active table. *)
Lemma missing_step_defaults_to_60_witness :
  (Active.azimuthIncrements !! 45 = None \/ Active.azimuthIncrements !! 45 = Some 0) /\
  pushLevel Active.azimuthIncrements [] 45
  = [] ++ [mkTarget 0 45; mkTarget 60 45; mkTarget 120 45;
           mkTarget 180 45; mkTarget 240 45; mkTarget 300 45] /\
  bandCount Active.azimuthIncrements 45 = 6.
Proof.
  assert (Hmissing : Active.azimuthIncrements !! 45 = None
                     \/ Active.azimuthIncrements !! 45 = Some 0).
  { left. vm_compute. reflexivity. }
  split; [exact Hmissing|].
  exact (missing_step_defaults_to_60 Active.azimuthIncrements 45 [] Hmissing).
Defined.

(** X4.  Whatever the signs of the steps, as long as [maxCaptures] is not
    negative the queue is the first [maxCaptures] targets of the untrimmed
    list: a band with a negative step pushes nothing and lowers the bound,
    so targets of other bands are dropped from the end. *)
Theorem queue_is_trimmed_plan
        (elevationLevels : list Z) (azimuthIncrements : gmap Z Z) :
  0 <= maxCaptures elevationLevels azimuthIncrements ->
  initializeQueue elevationLevels azimuthIncrements
  = Some (take (Z.to_nat (maxCaptures elevationLevels azimuthIncrements))
               (coveragePlan elevationLevels azimuthIncrements)).
Proof.
  intros Hbound. unfold initializeQueue.
  rewrite forEach_pushLevel. simpl app.
  apply truncateQueue_take; [done|lia].
Qed.

(** An equator band of step 40 and a band with the step -45: nine targets
    are pushed, the bound is 9 - 8 = 1, one target is left. *)
Lemma queue_is_trimmed_plan_witness :
  let levels := [0; 30] in
  let steps : gmap Z Z := {[ 0 := 40; 30 := -45 ]} in
  0 <= maxCaptures levels steps /\
  length (coveragePlan levels steps) = 9%nat /\
  initializeQueue levels steps = Some [mkTarget 0 0] /\
  initializeQueue levels steps
  = Some (take (Z.to_nat (maxCaptures levels steps)) (coveragePlan levels steps)).
Proof.
  intros levels steps.
  assert (Hbound : 0 <= maxCaptures levels steps) by (vm_compute; discriminate).
  split; [exact Hbound|].
  split; [vm_compute; reflexivity|].
  split; [vm_compute; reflexivity|].
  exact (queue_is_trimmed_plan levels steps Hbound).
Defined.

(** X5.  When the steps make [maxCaptures] negative the trimming loop
    cannot end: [queue.length > maxCaptures] holds for every array, the
    empty one included, so no amount of fuel lets [initializeQueue] or the
    reset block return. *)
Theorem negative_maxCaptures_never_returns
        (elevationLevels : list Z) (azimuthIncrements : gmap Z Z) :
  maxCaptures elevationLevels azimuthIncrements < 0 ->
  initializeQueue elevationLevels azimuthIncrements = None /\
  resetQueue elevationLevels azimuthIncrements = None /\
  forall (fuel : nat) (queue : list CaptureTarget),
    truncateQueue fuel (maxCaptures elevationLevels azimuthIncrements) queue = None.
Proof.
  intros Hneg. unfold initializeQueue, resetQueue.
  repeat split; intros; by apply truncateQueue_negative.
Qed.

(** A single band with the step -40. *)
Lemma negative_maxCaptures_never_returns_witness :
  let levels := [0] in
  let steps : gmap Z Z := {[ 0 := -40 ]} in
  maxCaptures levels steps < 0 /\
  initializeQueue levels steps = None /\
  resetQueue levels steps = None /\
  forall (fuel : nat) (queue : list CaptureTarget),
    truncateQueue fuel (maxCaptures levels steps) queue = None.
Proof.
  intros levels steps.
  assert (Hneg : maxCaptures levels steps < 0) by (vm_compute; reflexivity).
  split; [exact Hneg|].
  exact (negative_maxCaptures_never_returns levels steps Hneg).
Defined.

(* ===================================================================== *)
(** * Further properties of the stability detector *)
(* ===================================================================== *)

Section StabilityMore.

Import Stability.
Import Notions.

Lemma step_timerIdleWhenStable (st : MotionState) (sample : Z * MotionEvent) :
  timerIdleWhenStable st -> timerIdleWhenStable (step st sample).
Proof.
  destruct sample as [now [[a|] [r|]]], st as [stable timer].
  all: unfold timerIdleWhenStable, step, handleMotion, timeoutFires, effectCleanup.
  all: cbn -[belowThreshold accMagnitude rotMagnitude]; intros Hidle.
  all: destruct timer as [due|], stable;
    try (specialize (Hidle eq_refl); discriminate);
    try destruct (due <=? now);
    try destruct (belowThreshold (accMagnitude a) && belowThreshold (rotMagnitude r));
    cbn; try done; case_bool_decide; cbn; done.
Qed.

Lemma run_timerIdleWhenStable (st : MotionState) (samples : list (Z * MotionEvent)) :
  timerIdleWhenStable st -> timerIdleWhenStable (run st samples).
Proof.
  revert st. induction samples as [|sample samples IH]; intros st Hidle; [done|].
  cbn. apply IH. by apply step_timerIdleWhenStable.
Qed.

(** A sample the handler cannot read changes [isStable] only through the
    timer, and a pending timer finds the flag cleared already. *)
Lemma step_unreadable (st : MotionState) (now : Z) (event : MotionEvent) :
  timerIdleWhenStable st -> ~ informative event ->
  isStable (step st (now, event)) = isStable st.
Proof.
  intros Hidle Hnot. unfold step.
  rewrite handleMotion_throws by done. cbn [default].
  rewrite bool_decide_eq_true_2 by done.
  destruct st as [stable [due|]]; cbn; [|done].
  destruct stable; [specialize (Hidle eq_refl); discriminate|].
  by destruct (due <=? now).
Qed.

Lemma run_unreadable (st : MotionState) (samples : list (Z * MotionEvent)) :
  timerIdleWhenStable st ->
  Forall (fun sample => ~ informative sample.2) samples ->
  isStable (run st samples) = isStable st.
Proof.
  revert st. induction samples as [|[now event] samples IH]; intros st Hidle Hall; [done|].
  apply Forall_cons in Hall as [Hnot Hall]. cbn [run fold_left].
  change (isStable (run (step st (now, event)) samples) = isStable st).
  rewrite IH by (try apply step_timerIdleWhenStable; done).
  by apply step_unreadable.
Qed.

End StabilityMore.

(** X6.  [isStable] has no memory: it is true exactly when the last sample
    the handler could read had both magnitudes, computed in doubles, below
    the threshold.  The samples before it do not matter, and the samples
    after it that lack [acceleration] or [rotationRate] make the handler
    throw and change nothing. *)
Theorem isStable_follows_last_sample
        (st : Stability.MotionState)
        (before after : list (Z * Stability.MotionEvent))
        (now : Z) (event : Stability.MotionEvent) :
  Notions.timerIdleWhenStable st ->
  Stability.informative event ->
  Forall (fun sample => ~ Stability.informative sample.2) after ->
  Stability.isStable (Stability.run st (before ++ (now, event) :: after))
    = Stability.quiet event.
Proof.
  intros Hidle Hinf Hafter.
  replace (before ++ (now, event) :: after)
    with ((before ++ [(now, event)]) ++ after) by (by rewrite <- app_assoc).
  rewrite run_app.
  rewrite (run_unreadable _ after); [|by apply run_timerIdleWhenStable|done].
  by apply run_isStable.
Qed.

(** A device is shaken, then held with an acceleration of (0.024, 0.03,
    0.032), whose magnitude in doubles is just below 0.05; a sample without
    motion information follows. *)
Lemma isStable_follows_last_sample_witness :
  let shaken := Stability.mkEvent
                  (Some (Stability.mkAcc (Some 1%float) None None))
                  (Some (Stability.mkRot None None None)) in
  let held := Stability.mkEvent
                (Some (Stability.mkAcc (Some 0x1.89374bc6a7efap-6%float)
                                       (Some 0x1.eb851eb851eb8p-6%float)
                                       (Some 0x1.0624dd2f1a9fcp-5%float)))
                (Some (Stability.mkRot (Some 0%float) (Some 0%float) (Some 0%float))) in
  Stability.quiet held = true /\
  Stability.isStable
    (Stability.run Stability.initial
       ([(0, shaken)] ++ (100, held) :: [(200, Notions.noMotionInfo)]))
    = Stability.quiet held.
Proof.
  intros shaken held.
  split; [vm_compute; reflexivity|].
  apply (isStable_follows_last_sample Stability.initial [(0, shaken)]
           [(200, Notions.noMotionInfo)] 100 held).
  - intros Hstable. discriminate Hstable.
  - split; eexists; reflexivity.
  - apply Forall_singleton. intros [[a Ha] _]. discriminate Ha.
Defined.

(** X7.  Readings the sensor does not provide count as zero: a sample whose
    six readings are all [null] is below the threshold, and after it
    [isStable] is true whatever the state was.  A sample whose
    [acceleration] or [rotationRate] object is [null] makes the handler
    throw, and [isStable] stays what it was. *)
Theorem null_readings_count_as_zero_null_objects_throw
        (st : Stability.MotionState) (samples : list (Z * Stability.MotionEvent))
        (now : Z) (event : Stability.MotionEvent) :
  Notions.timerIdleWhenStable st ->
  Stability.acceleration event = None \/ Stability.rotationRate event = None ->
  Stability.isStable (Stability.run st (samples ++ [(now, Notions.noReadings)])) = true /\
  Stability.handleMotion now event (Stability.run st samples) = None /\
  Stability.isStable (Stability.run st (samples ++ [(now, event)]))
    = Stability.isStable (Stability.run st samples).
Proof.
  intros Hidle Hnull.
  assert (Hnot : ~ Stability.informative event).
  { intros [[a Ha] [r Hr]]. destruct Hnull as [Hnull|Hnull]; congruence. }
  split; [|split].
  - rewrite run_isStable; [reflexivity|split; eexists; reflexivity].
  - by apply handleMotion_throws.
  - rewrite run_app.
    apply (step_unreadable _ now event); [|done]. by apply run_timerIdleWhenStable.
Qed.

(** A device at rest, then an event without motion information. *)
Lemma null_readings_count_as_zero_null_objects_throw_witness :
  let st := Stability.initial in
  let samples := [(0, Stability.atRest)] in
  Stability.isStable (Stability.run st (samples ++ [(100, Notions.noReadings)])) = true /\
  Stability.handleMotion 100 Notions.noMotionInfo (Stability.run st samples) = None /\
  Stability.isStable (Stability.run st (samples ++ [(100, Notions.noMotionInfo)]))
    = Stability.isStable (Stability.run st samples).
Proof.
  intros st samples.
  apply (null_readings_count_as_zero_null_objects_throw st samples 100 Notions.noMotionInfo).
  - intros Hstable. discriminate Hstable.
  - left. reflexivity.
Defined.

(** X8.  The 300 ms timer never changes [isStable]: in every state the
    detector reaches from its initial state, a pending timer means that
    [isStable] is already false, which is all its callback sets. *)
Theorem stability_timer_changes_nothing
        (samples : list (Z * Stability.MotionEvent)) (due : Z) :
  let st := Stability.run Stability.initial samples in
  Stability.stabilityTimeoutRef st = Some due ->
  Stability.isStable st = false /\
  Stability.isStable (Stability.timeoutFires st) = Stability.isStable st.
Proof.
  intros st Hpending.
  assert (Hidle : Notions.timerIdleWhenStable st).
  { apply run_timerIdleWhenStable. intros Hstable. discriminate Hstable. }
  assert (Stability.isStable st = false) as Hmoving.
  { destruct (Stability.isStable st) eqn:Hstable; [|done].
    rewrite (Hidle Hstable) in Hpending. discriminate Hpending. }
  split; [done|]. by rewrite Hmoving.
Qed.

(** A device that is shaken once: the timer is pending, due at 300. *)
Lemma stability_timer_changes_nothing_witness :
  let shaken := Stability.mkEvent
                  (Some (Stability.mkAcc (Some 1%float) None None))
                  (Some (Stability.mkRot None None None)) in
  let st := Stability.run Stability.initial [(0, shaken)] in
  Stability.stabilityTimeoutRef st = Some 300 /\
  Stability.isStable st = false /\
  Stability.isStable (Stability.timeoutFires st) = Stability.isStable st.
Proof.
  intros shaken st.
  assert (Hpending : Stability.stabilityTimeoutRef st = Some 300)
    by (vm_compute; reflexivity).
  split; [exact Hpending|].
  exact (stability_timer_changes_nothing [(0, shaken)] 300 Hpending).
Defined.

(* ===================================================================== *)
(** * Further properties of the sharpening filter *)
(* ===================================================================== *)

Section SharpenMore.

Import Sharpen.
Import Notions.

Lemma clamp_range (v : Z) : 0 <= clamp v <= 255.
Proof.
  unfold clamp. destruct (Z.ltb_spec v 0); [lia|].
  destruct (Z.ltb_spec 255 v); lia.
Qed.

Lemma pixelValue_range (img : ImageData) (x y c : Z) :
  0 <= pixelValue img x y c <= 255.
Proof.
  unfold pixelValue. destruct (c =? 3); [lia|apply clamp_range].
Qed.

Lemma sharpenPixel_bytes (img : ImageData) (y x : Z) (outData : list Z) :
  Forall isByte outData -> Forall isByte (sharpenPixel img y outData x).
Proof.
  intros Hbytes. rewrite sharpenPixel_writes.
  repeat (apply Forall_insert; [|apply pixelValue_range]). done.
Qed.

Lemma pixels_bytes (img : ImageData) (y : Z) (xs : list Z) (outData : list Z) :
  Forall isByte outData -> Forall isByte (fold_left (sharpenPixel img y) xs outData).
Proof.
  revert outData. induction xs as [|x xs IH]; intros outData Hbytes; [done|].
  cbn. apply IH. by apply sharpenPixel_bytes.
Qed.

Lemma rows_bytes (img : ImageData) (ys : list Z) (outData : list Z) :
  Forall isByte outData -> Forall isByte (fold_left (sharpenRow img) ys outData).
Proof.
  revert outData. induction ys as [|y ys IH]; intros outData Hbytes; [done|].
  cbn. apply IH. by apply pixels_bytes.
Qed.

(** The byte the filter leaves at channel [c] of pixel [(x, y)]. *)
Lemma sharpenImage_lookup (img : ImageData) (x y c : Z) :
  0 <= x < width img -> 0 <= y < height img -> 0 <= c < 4 ->
  data (sharpenImage img) !! Z.to_nat (byteOffset img x y + c)
  = Some (pixelValue img x y c).
Proof.
  intros Hx Hy Hc. unfold sharpenImage, forLoop. cbn [data].
  apply rows_same; try done; try lia.
  - apply Forall_forall. intros y' Hy'. apply elem_of_seqZ in Hy'. lia.
  - apply elem_of_seqZ. lia.
  - unfold createImageData, byteOffset. rewrite length_replicate.
    assert ((y + 1) * width img <= height img * width img)
      by (apply Z.mul_le_mono_nonneg_r; lia).
    assert (0 <= y * width img) by (apply Z.mul_nonneg_nonneg; lia).
    lia.
Qed.

(** The filter reads the image only through its size and its colour
    channels. *)
Lemma tapTerm_sameColours (img img' : ImageData) (x y c ky kx : Z) :
  Notions.sameColours img img' -> 0 <= c < 3 ->
  tapTerm img x y c ky kx = tapTerm img' x y c ky kx.
Proof.
  intros (Hw & Hh & Hsame) Hc. unfold tapTerm, inBounds. rewrite <- Hw, <- Hh.
  destruct ((0 <=? x + kx - 1) && (x + kx - 1 <? width img)
            && (0 <=? y + ky - 1) && (y + ky - 1 <? height img)) eqn:Hin; [|done].
  rewrite Hsame; [done| | |done];
    repeat (apply andb_prop in Hin as [Hin ?]); lia.
Qed.

Lemma pixelValue_sameColours (img img' : ImageData) (x y c : Z) :
  Notions.sameColours img img' -> 0 <= c < 4 ->
  pixelValue img x y c = pixelValue img' x y c.
Proof.
  intros Hsame Hc. unfold pixelValue.
  destruct (Z.eqb_spec c 3); [done|].
  unfold convolve. by rewrite !(tapTerm_sameColours img img') by (done || lia).
Qed.

Lemma sharpenPixel_sameColours (img img' : ImageData) (y x : Z) (outData : list Z) :
  Notions.sameColours img img' ->
  sharpenPixel img y outData x = sharpenPixel img' y outData x.
Proof.
  intros Hsame. rewrite !sharpenPixel_writes.
  rewrite !(pixelValue_sameColours img img') by (done || lia).
  unfold byteOffset. by destruct Hsame as (-> & _).
Qed.

Lemma pixels_sameColours (img img' : ImageData) (y : Z) (xs : list Z) (outData : list Z) :
  Notions.sameColours img img' ->
  fold_left (sharpenPixel img y) xs outData = fold_left (sharpenPixel img' y) xs outData.
Proof.
  intros Hsame. revert outData. induction xs as [|x xs IH]; intros outData; [done|].
  cbn. by rewrite IH, (sharpenPixel_sameColours img img').
Qed.

Lemma rows_sameColours (img img' : ImageData) (ys : list Z) (outData : list Z) :
  Notions.sameColours img img' ->
  fold_left (sharpenRow img) ys outData = fold_left (sharpenRow img') ys outData.
Proof.
  intros Hsame. revert outData. induction ys as [|y ys IH]; intros outData; [done|].
  cbn. rewrite IH. unfold sharpenRow, forLoop.
  rewrite (pixels_sameColours img img') by done.
  by destruct Hsame as (-> & _).
Qed.

(** On a channel that is uniform a tap contributes its weight times the
    value, or nothing. *)
Lemma tapTerm_uniform (img : ImageData) (x y c v ky kx : Z) :
  Notions.uniformChannel img c v ->
  tapTerm img x y c ky kx
  = if inBounds img (x + kx - 1) (y + ky - 1) then weightAt ky kx * v else 0.
Proof.
  intros Huniform. unfold tapTerm.
  destruct (inBounds img (x + kx - 1) (y + ky - 1)) eqn:Hin; [|done].
  unfold inBounds in Hin. rewrite Huniform; [done| |];
    repeat (apply andb_prop in Hin as [Hin ?]); lia.
Qed.

Lemma convolve_uniform (img : ImageData) (x y c v : Z) :
  Notions.uniformChannel img c v ->
  0 <= x < width img -> 0 <= y < height img ->
  convolve img x y c = v * (1 + Notions.missingNeighbours img x y).
Proof.
  intros Huniform Hx Hy. unfold convolve.
  rewrite !(tapTerm_uniform img x y c v) by done.
  unfold inBounds, Notions.missingNeighbours.
  change (weightAt 0 0) with 0. change (weightAt 0 1) with (-1).
  change (weightAt 0 2) with 0. change (weightAt 1 0) with (-1).
  change (weightAt 1 1) with 5. change (weightAt 1 2) with (-1).
  change (weightAt 2 0) with 0. change (weightAt 2 1) with (-1).
  change (weightAt 2 2) with 0.
  replace (x + 1 - 1) with x by lia. replace (y + 1 - 1) with y by lia.
  replace (x + 2 - 1) with (x + 1) by lia. replace (y + 2 - 1) with (y + 1) by lia.
  replace (x + 0 - 1) with (x - 1) by lia. replace (y + 0 - 1) with (y - 1) by lia.
  destruct (Z.leb_spec 0 x); [|lia]. destruct (Z.ltb_spec x (width img)); [|lia].
  destruct (Z.leb_spec 0 y); [|lia]. destruct (Z.ltb_spec y (height img)); [|lia].
  destruct (Z.leb_spec 0 (x + 1)); [|lia]. destruct (Z.leb_spec 0 (y + 1)); [|lia].
  destruct (Z.ltb_spec (x - 1) (width img)); [|lia].
  destruct (Z.ltb_spec (y - 1) (height img)); [|lia].
  destruct (Z.eqb_spec x 0), (Z.eqb_spec x (width img - 1)),
    (Z.eqb_spec y 0), (Z.eqb_spec y (height img - 1)),
    (Z.leb_spec 0 (x - 1)), (Z.leb_spec 0 (y - 1)),
    (Z.ltb_spec (x + 1) (width img)), (Z.ltb_spec (y + 1) (height img));
    cbn [andb]; lia.
Qed.

End SharpenMore.

(** X9.  The sharpened image is a well-formed image again: it has the size
    of the input, four bytes per pixel, and every byte is within 0..255. *)
Theorem sharpened_image_is_well_formed (img : Sharpen.ImageData) :
  Sharpen.wellFormed img ->
  Sharpen.wellFormed (Sharpen.sharpenImage img) /\
  Forall Notions.isByte (Sharpen.data (Sharpen.sharpenImage img)).
Proof.
  intros (Hw & Hh & Hlen).
  unfold Sharpen.wellFormed, Sharpen.sharpenImage, Sharpen.forLoop.
  cbn [Sharpen.width Sharpen.height Sharpen.data].
  split.
  - split; [done|]. split; [done|].
    rewrite length_rows. unfold Sharpen.createImageData. rewrite length_replicate.
    assert (0 <= Sharpen.width img * Sharpen.height img)
      by (apply Z.mul_nonneg_nonneg; lia).
    lia.
  - apply rows_bytes. unfold Sharpen.createImageData.
    apply Forall_replicate. unfold Notions.isByte. lia.
Qed.

(** A 2 x 2 image. *)
Lemma sharpened_image_is_well_formed_witness :
  let img := Sharpen.mkImage 2 2
               [10; 20; 30; 40;  50; 60; 70; 80;
                90; 100; 110; 120;  200; 210; 220; 230] in
  Sharpen.wellFormed img /\
  Sharpen.wellFormed (Sharpen.sharpenImage img) /\
  Forall Notions.isByte (Sharpen.data (Sharpen.sharpenImage img)).
Proof.
  intros img.
  assert (Hwf : Sharpen.wellFormed img).
  { unfold Sharpen.wellFormed. simpl. lia. }
  split; [exact Hwf|].
  exact (sharpened_image_is_well_formed img Hwf).
Defined.

(** X10.  Out-of-image taps are dropped, not compensated: on a channel that
    has the same value [v] everywhere, a pixel comes out as
    [v * (1 + m)] clamped, where [m] is the number of its four neighbours
    that fall outside the image.  Inside the image a flat channel is left as
    it is; along the border it is doubled, in a corner tripled, and the
    single pixel of a 1 x 1 image is multiplied by five. *)
Theorem flat_channel_brightens_at_border (img : Sharpen.ImageData) (x y c v : Z) :
  Sharpen.wellFormed img ->
  Notions.uniformChannel img c v ->
  0 <= x < Sharpen.width img -> 0 <= y < Sharpen.height img -> 0 <= c < 3 ->
  Sharpen.data (Sharpen.sharpenImage img) !! Z.to_nat (Sharpen.byteOffset img x y + c)
  = Some (Sharpen.clamp (v * (1 + Notions.missingNeighbours img x y))) /\
  (Notions.missingNeighbours img x y = 0 -> Notions.isByte v ->
   Sharpen.data (Sharpen.sharpenImage img) !! Z.to_nat (Sharpen.byteOffset img x y + c)
   = Some v).
Proof.
  intros _ Huniform Hx Hy Hc.
  rewrite sharpenImage_lookup by (done || lia).
  unfold Sharpen.pixelValue. destruct (Z.eqb_spec c 3); [lia|].
  rewrite (convolve_uniform img x y c v) by done.
  split; [done|].
  intros -> Hbyte. f_equal. unfold Sharpen.clamp, Notions.isByte in *.
  rewrite Z.add_0_r, Z.mul_1_r.
  destruct (Z.ltb_spec v 0); [lia|]. destruct (Z.ltb_spec 255 v); lia.
Qed.

(** The corner (0, 0) of a 2 x 2 image whose red channel is 10 everywhere:
    two neighbours are missing, red comes out as 30. *)
Lemma flat_channel_brightens_at_border_witness :
  let img := Sharpen.mkImage 2 2
               [10; 1; 2; 255;  10; 3; 4; 255;
                10; 5; 6; 255;  10; 7; 8; 255] in
  Sharpen.wellFormed img /\
  Notions.uniformChannel img 0 10 /\
  Notions.missingNeighbours img 0 0 = 2 /\
  Sharpen.data (Sharpen.sharpenImage img) !! Z.to_nat (Sharpen.byteOffset img 0 0 + 0)
  = Some (Sharpen.clamp (10 * (1 + Notions.missingNeighbours img 0 0))) /\
  (Notions.missingNeighbours img 0 0 = 0 -> Notions.isByte 10 ->
   Sharpen.data (Sharpen.sharpenImage img) !! Z.to_nat (Sharpen.byteOffset img 0 0 + 0)
   = Some 10).
Proof.
  intros img.
  assert (Hwf : Sharpen.wellFormed img).
  { unfold Sharpen.wellFormed. simpl. lia. }
  assert (Huniform : Notions.uniformChannel img 0 10).
  { intros px py Hpx Hpy. simpl in Hpx, Hpy.
    assert (px = 0 \/ px = 1) as [-> | ->] by lia;
      assert (py = 0 \/ py = 1) as [-> | ->] by lia; reflexivity. }
  split; [exact Hwf|]. split; [exact Huniform|]. split; [reflexivity|].
  apply (flat_channel_brightens_at_border img 0 0 0 10 Hwf Huniform); simpl; lia.
Defined.

(** X11.  The filter never reads the alpha channel: two well-formed images
    of the same size with the same red, green and blue bytes are sharpened
    to the same image, whatever their alpha bytes are. *)
Theorem sharpenImage_ignores_alpha (img img' : Sharpen.ImageData) :
  Sharpen.wellFormed img -> Sharpen.wellFormed img' ->
  Notions.sameColours img img' ->
  Sharpen.sharpenImage img = Sharpen.sharpenImage img'.
Proof.
  intros _ _ Hsame. unfold Sharpen.sharpenImage, Sharpen.forLoop.
  rewrite (rows_sameColours img img') by done.
  by destruct Hsame as (-> & -> & _).
Qed.

(** An opaque and a transparent pixel of the same colour. *)
Lemma sharpenImage_ignores_alpha_witness :
  let img := Sharpen.mkImage 1 1 [10; 20; 30; 255] in
  let img' := Sharpen.mkImage 1 1 [10; 20; 30; 0] in
  Sharpen.wellFormed img /\ Sharpen.wellFormed img' /\
  Notions.sameColours img img' /\
  Sharpen.sharpenImage img = Sharpen.sharpenImage img'.
Proof.
  intros img img'.
  assert (Hwf : Sharpen.wellFormed img) by (unfold Sharpen.wellFormed; simpl; lia).
  assert (Hwf' : Sharpen.wellFormed img') by (unfold Sharpen.wellFormed; simpl; lia).
  assert (Hsame : Notions.sameColours img img').
  { split; [reflexivity|]. split; [reflexivity|].
    intros px py c Hpx Hpy Hc. simpl in Hpx, Hpy.
    assert (px = 0) as -> by lia. assert (py = 0) as -> by lia.
    assert (c = 0 \/ c = 1 \/ c = 2) as [-> | [-> | ->]] by lia; reflexivity. }
  split; [exact Hwf|]. split; [exact Hwf'|]. split; [exact Hsame|].
  exact (sharpenImage_ignores_alpha img img' Hwf Hwf' Hsame).
Defined.

(* ===================================================================== *)
(** * Further properties of the capture pipeline *)
(* ===================================================================== *)

Section SessionMore.

Import Session.

(** Every way [performCapture] can return.  Unless it leaves a load
    pending it has touched neither the queue nor the tiles, thumbnails and
    counters; when it does, it has taken the head off the current queue
    array and set the in-flight flag, and nothing else. *)
Lemma performCapture_cases (isAuto : bool) (frame : Sharpen.ImageData)
      (s s' : State) (o : Outcome) :
  performCapture isAuto frame s = (s', o) ->
  Notions.sameTiles s s' /\
  (((forall c, o <> Loading c) /\ heap s' = heap s) \/
   (exists target rest,
       currentQueue s = target :: rest /\
       o = Loading (mkCapture (azimuth target) (elevation target)
                              (captureQueueRef s) isAuto frame) /\
       heap s' = <[captureQueueRef s := rest]> (heap s) /\
       currentQueue s' = rest /\
       isStable s = true /\ capturingRef s = false /\ capturingRef s' = true)).
Proof.
  destruct s as [heap loc planes count cap first vp mk rr sc hc vi ins cc pc st th qr].
  unfold performCapture, Notions.sameTiles, currentQueue, queueAt. cbn.
  destruct st; cbn; [|intros [= <- <-]; cbn; split; [done|left; done]].
  destruct cap; cbn; [intros [= <- <-]; cbn; split; [done|left; done]|].
  destruct (negb rr || negb sc || bool_decide (vp = None) || bool_decide (mk = None)
            || negb hc || negb vi);
    [intros [= <- <-]; cbn; split; [done|left; done]|].
  case_bool_decide as Hempty; [intros [= <- <-]; cbn; split; [done|left; done]|].
  destruct (heap !!! loc) as [|target rest] eqn:Hqueue; [done|].
  intros [= <- <-]. cbn. split; [done|]. right. exists target, rest.
  repeat split; try done.
  apply list_lookup_total_insert_eq.
  rewrite list_lookup_total_alt in Hqueue.
  destruct (heap !! loc) as [q|] eqn:Hlook; [by apply lookup_lt_Some in Hlook|done].
Qed.

(** Everything the load handler does to the session, when it returns. *)
Lemma onload_result (c : Capture) (s s' : State) :
  performCapture_onload c s = Some s' ->
  heap s' = heap s /\ captureQueueRef s' = captureQueueRef s /\
  capturedPlanesRef s'
  = match queueAt (cQueue c) s with
    | next :: _ => alter (addMiddlePointer next)
                         (length (capturedPlanesRef s) - 1)%nat (capturedPlanesRef s)
    | [] => capturedPlanesRef s
    end ++ [mkPlane (mkTarget (cAzimuth c) (cElevation c))
                    (Sharpen.sharpenImage (cFrame c)) []] /\
  thumbnails s' = thumbnails s ++ [Sharpen.sharpenImage (cFrame c)] /\
  captureCountRef s' = captureCountRef s + 1 /\
  captureCount s' = captureCountRef s + 1 /\
  firstCaptureDoneRef s' = (if cIsAuto c then firstCaptureDoneRef s else true) /\
  capturingRef s' = false /\ isStable s' = isStable s.
Proof.
  destruct s as [heap loc planes count cap first vp mk rr sc hc vi ins cc pc st th qr].
  destruct c as [az el q auto frame].
  unfold performCapture_onload, queueAt.
  cbn [cAzimuth cElevation cQueue cIsAuto cFrame].
  set (img := Sharpen.sharpenImage frame).
  destruct (heap !!! q) as [|next tl] eqn:Hq;
    destruct auto, vp as [vp|], mk as [mk|]; cbv zeta;
    cbn -[img Active.maxCaptures msgCaptured Z.add Z.leb];
    case_bool_decide as Hlen;
    cbn -[img Active.maxCaptures msgCaptured Z.add Z.leb];
    rewrite ?Hq;
    cbn -[img Active.maxCaptures msgCaptured Z.add Z.leb];
    try discriminate;
    destruct (Z.leb_spec Active.maxCaptures (count + 1));
    cbn -[img Active.maxCaptures msgCaptured Z.add Z.leb];
    intros [= <-];
    cbn -[img Active.maxCaptures msgCaptured Z.add Z.leb];
    repeat split; try done;
    rewrite ?length_app in *; cbn [length] in *;
    try (rewrite alter_app_l by lia; do 2 f_equal; lia);
    try (destruct planes; [done|cbn [length] in *; lia]).
Qed.

End SessionMore.

Section SessionMoreFacts.

Import Session.
Import Notions.

(** A capture from call to tile, whenever it returns: either nothing was
    dequeued and tiles, thumbnails and counters are untouched, or the head
    of the queue was dequeued and its tile appended, the tile before it
    receiving a pointer to the new head. *)
Lemma captureOnce_cases (isAuto : bool) (frame : Sharpen.ImageData) (s s' : State) :
  captureOnce isAuto frame s = Some s' ->
  (sameTiles s s' /\ currentQueue s' = currentQueue s) \/
  (exists target rest,
      currentQueue s = target :: rest /\ currentQueue s' = rest /\
      capturedPlanesRef s'
      = match rest with
        | next :: _ => alter (addMiddlePointer next)
                             (length (capturedPlanesRef s) - 1)%nat (capturedPlanesRef s)
        | [] => capturedPlanesRef s
        end ++ [mkPlane target (Sharpen.sharpenImage frame) []] /\
      thumbnails s' = thumbnails s ++ [Sharpen.sharpenImage frame] /\
      captureCountRef s' = captureCountRef s + 1 /\
      captureCount s' = captureCountRef s + 1 /\
      firstCaptureDoneRef s' = (if isAuto then firstCaptureDoneRef s else true) /\
      capturingRef s' = false /\
      captureQueueRef s' = captureQueueRef s).
Proof.
  unfold captureOnce.
  destruct (performCapture isAuto frame s) as [s1 o] eqn:Hcall.
  apply performCapture_cases in Hcall
    as [(Hplanes & Hthumbs & Hcnt & Hcc & Hfirst & Hloc) Hcase].
  destruct Hcase as [[Hnot Hheap]|(target & rest & Hq & -> & Hheap & Hq1 & _ & _ & _)].
  - destruct o as [|c|]; [|by destruct (Hnot c)|done].
    intros [= <-]. left. split; [done|].
    unfold currentQueue, queueAt. by rewrite Hloc, Hheap.
  - intros Hload. apply onload_result in Hload
      as (Hheap' & Hloc' & Hplanes' & Hthumbs' & Hcnt' & Hcc' & Hfirst' & Hcap' & _).
    cbn [cAzimuth cElevation cQueue cIsAuto cFrame] in *.
    right. exists target, rest.
    assert (queueAt (captureQueueRef s) s1 = rest) as Hrest.
    { unfold currentQueue in Hq1. by rewrite Hloc in Hq1. }
    rewrite Hrest, Hplanes in Hplanes'.
    split; [done|]. split.
    { unfold currentQueue, queueAt in *. by rewrite Hloc', Hheap'. }
    split; [by destruct target|].
    split; [by rewrite Hthumbs', Hthumbs|].
    split; [lia|]. split; [lia|].
    split; [by rewrite Hfirst', Hfirst|]. split; [done|]. congruence.
Qed.

(** Any number of captures, up to what the queue holds. *)
Lemma captureAll_progress (inputs : list (bool * Sharpen.ImageData)) (s : State) :
  ready s -> isStable s = true -> capturingRef s = false ->
  (length inputs <= length (currentQueue s))%nat ->
  exists s',
    captureAll inputs s = Some s' /\
    ready s' /\ isStable s' = true /\ capturingRef s' = false /\
    currentQueue s' = drop (length inputs) (currentQueue s) /\
    placedAt <$> capturedPlanesRef s'
      = (placedAt <$> capturedPlanesRef s) ++ take (length inputs) (currentQueue s) /\
    texture <$> capturedPlanesRef s'
      = (texture <$> capturedPlanesRef s) ++ ((Sharpen.sharpenImage ∘ snd) <$> inputs) /\
    thumbnails s' = thumbnails s ++ ((Sharpen.sharpenImage ∘ snd) <$> inputs) /\
    captureCountRef s' = captureCountRef s + Z.of_nat (length inputs).
Proof.
  revert s. induction inputs as [|[isAuto frame] inputs IH];
    intros s Hready Hstable Hidle Hlen.
  - exists s. cbn. rewrite !app_nil_r, drop_0.
    repeat (split; [done|]). lia.
  - destruct (currentQueue s) as [|target rest] eqn:Hq; [cbn in Hlen; lia|].
    destruct (captureOnce_dequeues isAuto frame s target rest)
      as (s1 & Hone & Hq1 & Hready1 & Hst1 & Hidle1 & Hplaced1 & Htex1 & Hcnt1 & _);
      try done.
    pose proof (captureOnce_cases isAuto frame s s1 Hone) as Hcases.
    assert (thumbnails s1 = thumbnails s ++ [Sharpen.sharpenImage frame]) as Hthumbs1.
    { destruct Hcases as [[(_ & _ & Hsame & _) _]|(t & r & _ & _ & _ & Hth & _)];
        [lia|done]. }
    destruct (IH s1) as (s' & Hall & Hready' & Hst' & Hidle' & Hq' & Hplaced' & Htex'
                         & Hthumbs' & Hcnt'); try done.
    { rewrite Hq1. cbn in Hlen. lia. }
    exists s'. cbn [captureAll]. rewrite Hone. cbn.
    split; [done|]. split; [done|]. split; [done|]. split; [done|].
    split; [by rewrite Hq', Hq1|].
    split; [by rewrite Hplaced', Hplaced1, Hq1, <- app_assoc|].
    split; [by rewrite Htex', Htex1, <- app_assoc|].
    split; [by rewrite Hthumbs', Hthumbs1, <- app_assoc|].
    rewrite Hcnt', Hcnt1. lia.
Qed.

(** One capture keeps the pointers settled. *)
Lemma captureOnce_pointersSettled (plan : list CaptureTarget) (isAuto : bool)
      (frame : Sharpen.ImageData) (s s' : State)
      (target : CaptureTarget) (rest : list CaptureTarget) :
  ready s -> isStable s = true -> capturingRef s = false ->
  pointersSettled plan s ->
  currentQueue s = target :: rest ->
  captureOnce isAuto frame s = Some s' ->
  pointersSettled plan s' /\
  length (capturedPlanesRef s') = S (length (capturedPlanesRef s)).
Proof.
  intros Hready Hstable Hidle [Hplan Hptr] Hq Hone.
  destruct (captureOnce_dequeues isAuto frame s target rest)
    as (s1 & Hone1 & _ & _ & _ & _ & _ & _ & Hcnt1 & _); try done.
  rewrite Hone in Hone1. injection Hone1 as <-.
  apply captureOnce_cases in Hone
    as [[(_ & _ & Hcnt & _) Hsame]|(t & r & Hq' & Hrest & Hplanes & _)]; [lia|].
  rewrite Hq in Hq'. injection Hq' as <- <-.
  set (P := capturedPlanesRef s) in *.
  set (tile := mkPlane target (Sharpen.sharpenImage frame) []) in *.
  assert (Hlen : length (capturedPlanesRef s') = S (length P)).
  { rewrite Hplanes, length_app. cbn [length].
    destruct rest; rewrite ?length_alter; lia. }
  split; [|done]. split.
  - rewrite Hplanes, Hrest, fmap_app. cbn [fmap list_fmap].
    rewrite <- Hplan, Hq, <- app_assoc. cbn [app]. f_equal.
    destruct rest; [done|]. by apply fmap_alter_same.
  - intros i p Hlook. rewrite Hlen.
    assert (plan = (placedAt <$> P) ++ target :: rest) as Hplan'
        by (by rewrite <- Hplan, Hq).
    assert (length (placedAt <$> P) = length P) as HlenP by apply length_fmap.
    rewrite Hplanes in Hlook.
    destruct (decide (i < length P)%nat) as [Hi|Hi].
    + rewrite lookup_app_l in Hlook by (destruct rest; rewrite ?length_alter; lia).
      destruct (decide (S i = length P)) as [Hlast|Hnotlast].
      * (* the tile before the new one *)
        rewrite decide_True by lia.
        unfold twoAhead. rewrite Hplan', lookup_app_r by lia.
        replace (i + 2 - length (placedAt <$> P))%nat with 1%nat by lia.
        destruct rest as [|next rest'].
        -- cbn. rewrite (Hptr i p Hlook). by rewrite decide_False by lia.
        -- cbn. replace (length P - 1)%nat with i in Hlook by lia.
           rewrite list_lookup_alter_eq in Hlook.
           destruct (P !! i) as [p0|] eqn:Hp0; [|done].
           injection Hlook as <-. cbn.
           rewrite (Hptr i p0 Hp0). by rewrite decide_False by lia.
      * (* an older tile *)
        assert (P !! i = Some p) as Hold.
        { destruct rest; [done|]. by rewrite list_lookup_alter_ne in Hlook by lia. }
        rewrite (Hptr i p Hold). by rewrite !decide_True by lia.
    + (* the new tile *)
      rewrite lookup_app_r in Hlook by (destruct rest; rewrite ?length_alter; lia).
      rewrite decide_False by lia.
      apply list_elem_of_lookup_2 in Hlook. apply list_elem_of_singleton in Hlook.
      by subst p.
Qed.

End SessionMoreFacts.

Section SessionRuns.

Import Session.
Import Notions.

Lemma captureAll_pointersSettled (plan : list CaptureTarget)
      (inputs : list (bool * Sharpen.ImageData)) (s : State) :
  ready s -> isStable s = true -> capturingRef s = false ->
  pointersSettled plan s ->
  (length inputs <= length (currentQueue s))%nat ->
  exists s',
    captureAll inputs s = Some s' /\
    pointersSettled plan s' /\
    length (capturedPlanesRef s') = (length (capturedPlanesRef s) + length inputs)%nat.
Proof.
  revert s. induction inputs as [|[isAuto frame] inputs IH];
    intros s Hready Hstable Hidle Hsettled Hlen.
  - exists s. cbn. split; [done|]. split; [done|]. lia.
  - destruct (currentQueue s) as [|target rest] eqn:Hq; [cbn in Hlen; lia|].
    destruct (captureOnce_dequeues isAuto frame s target rest)
      as (s1 & Hone & Hq1 & Hready1 & Hst1 & Hidle1 & _); try done.
    destruct (captureOnce_pointersSettled plan isAuto frame s s1 target rest)
      as [Hsettled1 Hlen1]; try done.
    destruct (IH s1) as (s' & Hall & Hsettled' & Hlen'); try done.
    { rewrite Hq1. cbn in Hlen. lia. }
    exists s'. cbn [captureAll]. rewrite Hone. cbn.
    split; [done|]. split; [done|]. rewrite Hlen', Hlen1. cbn [length]. lia.
Qed.

(** [resetPanorama] written out. *)
Lemma resetPanorama_result (s s' : State) :
  resetPanorama s = Some s' ->
  s' = s \/
  (fresh s' /\ thumbnails s' = [] /\ capturingRef s' = false /\
   isPanoramaComplete s' = false /\
   heap s' = heap s ++ [coveragePlan Active.elevationLevels Active.azimuthIncrements] /\
   captureQueueRef s' = length (heap s) /\
   currentQueue s' = coveragePlan Active.elevationLevels Active.azimuthIncrements).
Proof.
  destruct s as [heap loc planes count cap first vp mk rr sc hc vi ins cc pc st th qr].
  unfold resetPanorama. cbn -[resetQueue coveragePlan].
  destruct (negb sc || bool_decide (vp = None) || bool_decide (mk = None));
    [intros [= <-]; by left|].
  rewrite resetQueue_active.
  remember (coveragePlan Active.elevationLevels Active.azimuthIncrements) as plan.
  unfold currentQueue, queueAt, fresh. cbn.
  assert (Hnew : (heap ++ [plan]) !!! length heap = plan).
  { rewrite lookup_total_app_r by done. by rewrite Nat.sub_diag. }
  rewrite Hnew. clear Heqplan.
  destruct plan; intros [= <-]; right; cbn; rewrite ?Hnew; done.
Qed.

End SessionRuns.

(** X12.  The auto-capture block of the animation loop never captures: it
    sets [capturingRef] and then calls [performCapture], which returns at
    its own in-flight test; the callback of [.then] clears the flag again.
    However many frames are drawn, whatever the marker and the device do,
    the session is left exactly as it was. *)
Theorem auto_capture_never_fires
        (ticks : list (bool * Sharpen.ImageData)) (s : Session.State) :
  Ui.animateAll ticks s = s /\
  forall (markerCentered : bool) (frame : Sharpen.ImageData),
    Session.animate markerCentered frame s = (s, Session.Resolved).
Proof.
  split; [|intros; apply animate_is_identity].
  induction ticks as [|[markerCentered frame] ticks IH]; [done|].
  cbn [Ui.animateAll]. by rewrite animate_is_identity.
Qed.

(** X13.  Tiles, thumbnails and counters stay in step: if there is one
    thumbnail per tile, made of its texture, and both counters equal the
    number of tiles, the same holds after a capture (whichever way it
    ends), after [resetPanorama], and after the auto-capture block. *)
Theorem bookkeeping_stays_in_sync
        (isAuto markerCentered : bool) (frame : Sharpen.ImageData) (s : Session.State) :
  Notions.inSync s ->
  (forall s', Session.captureOnce isAuto frame s = Some s' -> Notions.inSync s') /\
  (forall s', Session.resetPanorama s = Some s' -> Notions.inSync s') /\
  Notions.inSync (fst (Session.animate markerCentered frame s)).
Proof.
  intros (Hthumbs & Hlen & Hcc). split; [|split].
  - intros s' Hone. apply captureOnce_cases in Hone
      as [[(Hp & Ht & Hc & Hcc' & _) _]
         |(target & rest & _ & _ & Hp & Ht & Hc & Hcc' & _)].
    + unfold Notions.inSync. rewrite Hp, Ht, Hc, Hcc'. done.
    + unfold Notions.inSync. rewrite Hp, Ht, Hc, Hcc', fmap_app, length_app.
      cbn [fmap list_fmap length]. split; [|split; [|lia]].
      * f_equal. rewrite Hthumbs.
        destruct rest; [done|]. symmetry. by apply fmap_alter_same.
      * destruct rest; rewrite ?length_alter; lia.
  - intros s' Hreset. apply resetPanorama_result in Hreset
      as [->|((Hc & Hcc' & Hp & _) & Ht & _)]; [done|].
    unfold Notions.inSync. rewrite Hp, Ht, Hc, Hcc'. done.
  - by rewrite animate_is_identity.
Qed.

(** The mounted session, device steady. *)
Lemma bookkeeping_stays_in_sync_witness :
  Notions.inSync Session.steady /\
  (forall s', Session.captureOnce false Session.onePixel Session.steady = Some s' ->
              Notions.inSync s') /\
  (forall s', Session.resetPanorama Session.steady = Some s' -> Notions.inSync s') /\
  Notions.inSync (fst (Session.animate true Session.onePixel Session.steady)).
Proof.
  assert (Hsync : Notions.inSync Session.steady).
  { unfold Notions.inSync. simpl. repeat split. }
  split; [exact Hsync|].
  exact (bookkeeping_stays_in_sync false true Session.onePixel Session.steady Hsync).
Defined.

(** X14.  Captures can stop anywhere: after k captures on a ready, steady,
    idle session whose queue holds at least k targets, the first k targets
    have been dequeued and placed in order, the rest of the queue is
    untouched, and tile and thumbnail number j are the sharpened frame of
    capture number j. *)
Theorem captures_place_own_frames_in_order
        (inputs : list (bool * Sharpen.ImageData)) (s : Session.State) :
  Session.ready s -> Session.isStable s = true -> Session.capturingRef s = false ->
  (length inputs <= length (Session.currentQueue s))%nat ->
  exists s',
    Session.captureAll inputs s = Some s' /\
    Session.currentQueue s' = drop (length inputs) (Session.currentQueue s) /\
    Session.placedAt <$> Session.capturedPlanesRef s'
      = (Session.placedAt <$> Session.capturedPlanesRef s)
          ++ take (length inputs) (Session.currentQueue s) /\
    Session.texture <$> Session.capturedPlanesRef s'
      = (Session.texture <$> Session.capturedPlanesRef s)
          ++ ((Sharpen.sharpenImage ∘ snd) <$> inputs) /\
    Session.thumbnails s'
      = Session.thumbnails s ++ ((Sharpen.sharpenImage ∘ snd) <$> inputs) /\
    Session.captureCountRef s'
      = Session.captureCountRef s + Z.of_nat (length inputs).
Proof.
  intros Hready Hstable Hidle Hlen.
  destruct (captureAll_progress inputs s Hready Hstable Hidle Hlen)
    as (s' & Hall & _ & _ & _ & Hq & Hplaced & Htex & Hthumbs & Hcnt).
  by exists s'.
Qed.

(** Two captures with different frames on the mounted session. *)
Lemma captures_place_own_frames_in_order_witness :
  let other := Sharpen.mkImage 1 1 [1; 2; 3; 255] in
  let inputs := [(false, Session.onePixel); (true, other)] in
  Session.ready Session.steady /\
  (length inputs <= length (Session.currentQueue Session.steady))%nat /\
  exists s',
    Session.captureAll inputs Session.steady = Some s' /\
    Session.currentQueue s'
      = drop (length inputs) (Session.currentQueue Session.steady) /\
    Session.placedAt <$> Session.capturedPlanesRef s'
      = (Session.placedAt <$> Session.capturedPlanesRef Session.steady)
          ++ take (length inputs) (Session.currentQueue Session.steady) /\
    Session.texture <$> Session.capturedPlanesRef s'
      = (Session.texture <$> Session.capturedPlanesRef Session.steady)
          ++ ((Sharpen.sharpenImage ∘ snd) <$> inputs) /\
    Session.thumbnails s'
      = Session.thumbnails Session.steady ++ ((Sharpen.sharpenImage ∘ snd) <$> inputs) /\
    Session.captureCountRef s'
      = Session.captureCountRef Session.steady + Z.of_nat (length inputs).
Proof.
  intros other inputs.
  assert (Hready : Session.ready Session.steady).
  { unfold Session.ready. simpl. repeat split; eauto. }
  assert (Hlen : (length inputs <= length (Session.currentQueue Session.steady))%nat).
  { vm_compute. lia. }
  split; [exact Hready|]. split; [exact Hlen|].
  exact (captures_place_own_frames_in_order inputs Session.steady
           Hready eq_refl eq_refl Hlen).
Defined.

(** X15.  The pointer annotations: starting with no tiles, after k captures
    tile number i sits at target i of the queue as it was at the start,
    every tile but the newest carries exactly one pointer, to the target two
    places after its own (none if the plan ends before that), and the
    newest tile carries none. *)
Theorem tiles_point_two_targets_ahead
        (inputs : list (bool * Sharpen.ImageData)) (s : Session.State) :
  Session.ready s -> Session.isStable s = true -> Session.capturingRef s = false ->
  Session.capturedPlanesRef s = [] ->
  (length inputs <= length (Session.currentQueue s))%nat ->
  exists s',
    Session.captureAll inputs s = Some s' /\
    length (Session.capturedPlanesRef s') = length inputs /\
    forall (i : nat) (p : Session.CapturedPlane),
      Session.capturedPlanesRef s' !! i = Some p ->
      Session.currentQueue s !! i = Some (Session.placedAt p) /\
      Session.pointers p
      = if decide (i + 1 < length inputs)%nat
        then Notions.twoAhead (Session.currentQueue s) i else [].
Proof.
  intros Hready Hstable Hidle Hnone Hlen.
  assert (Hsettled : Notions.pointersSettled (Session.currentQueue s) s).
  { split; [by rewrite Hnone|]. intros i p. by rewrite Hnone. }
  destruct (captureAll_pointersSettled (Session.currentQueue s) inputs s
              Hready Hstable Hidle Hsettled Hlen)
    as (s' & Hall & [Hplan Hptr] & Hcount).
  rewrite Hnone in Hcount. cbn [length Nat.add] in Hcount.
  exists s'. split; [done|]. split; [done|].
  intros i p Hlook. split.
  - rewrite <- Hplan, lookup_app_l.
    + by rewrite list_lookup_fmap, Hlook.
    + rewrite length_fmap. by apply lookup_lt_Some in Hlook.
  - rewrite (Hptr i p Hlook). by rewrite Hcount.
Qed.

(** Three captures on the mounted session. *)
Lemma tiles_point_two_targets_ahead_witness :
  let inputs := replicate 3 (true, Session.onePixel) in
  Session.ready Session.steady /\
  (length inputs <= length (Session.currentQueue Session.steady))%nat /\
  exists s',
    Session.captureAll inputs Session.steady = Some s' /\
    length (Session.capturedPlanesRef s') = length inputs /\
    forall (i : nat) (p : Session.CapturedPlane),
      Session.capturedPlanesRef s' !! i = Some p ->
      Session.currentQueue Session.steady !! i = Some (Session.placedAt p) /\
      Session.pointers p
      = if decide (i + 1 < length inputs)%nat
        then Notions.twoAhead (Session.currentQueue Session.steady) i else [].
Proof.
  intros inputs.
  assert (Hready : Session.ready Session.steady).
  { unfold Session.ready. simpl. repeat split; eauto. }
  assert (Hlen : (length inputs <= length (Session.currentQueue Session.steady))%nat).
  { vm_compute. lia. }
  split; [exact Hready|]. split; [exact Hlen|].
  exact (tiles_point_two_targets_ahead inputs Session.steady
           Hready eq_refl eq_refl eq_refl Hlen).
Defined.

(** X16.  The counter and the queue move together: whatever the state and
    however each capture ends, after any run of captures the counter plus
    the number of queued targets is what it was before. *)
Theorem count_plus_queue_is_constant
        (inputs : list (bool * Sharpen.ImageData)) (s s' : Session.State) :
  Session.captureAll inputs s = Some s' ->
  Session.captureCountRef s' + Z.of_nat (length (Session.currentQueue s'))
  = Session.captureCountRef s + Z.of_nat (length (Session.currentQueue s)).
Proof.
  revert s. induction inputs as [|[isAuto frame] inputs IH]; intros s Hall.
  - cbn in Hall. by injection Hall as <-.
  - cbn [Session.captureAll] in Hall.
    destruct (Session.captureOnce isAuto frame s) as [s1|] eqn:Hone; [|done].
    cbn in Hall. rewrite (IH s1 Hall).
    apply captureOnce_cases in Hone
      as [[(_ & _ & Hcnt & _) Hq]|(target & rest & Hq & Hq1 & _ & _ & Hcnt & _)].
    + by rewrite Hcnt, Hq.
    + rewrite Hcnt, Hq1, Hq. cbn [length]. lia.
Qed.

(** The first manual capture on the mounted session. *)
Lemma count_plus_queue_is_constant_witness :
  let inputs := [(false, Session.onePixel)] in
  let s' := default Session.steady (Session.captureAll inputs Session.steady) in
  Session.captureAll inputs Session.steady = Some s' /\
  Session.captureCountRef s' = 1 /\
  Session.captureCountRef s' + Z.of_nat (length (Session.currentQueue s'))
  = Session.captureCountRef Session.steady
    + Z.of_nat (length (Session.currentQueue Session.steady)).
Proof.
  intros inputs s'.
  assert (Hall : Session.captureAll inputs Session.steady = Some s').
  { vm_compute. reflexivity. }
  split; [exact Hall|]. split; [vm_compute; reflexivity|].
  exact (count_plus_queue_is_constant inputs Session.steady s' Hall).
Defined.

Section UiFacts.

Import Session.
Import Notions.

(** [performCapture] sets [isPanoramaComplete] only when it finds the queue
    empty, and never clears it. *)
Lemma performCapture_complete (isAuto : bool) (frame : Sharpen.ImageData)
      (s s' : State) (o : Outcome) :
  performCapture isAuto frame s = (s', o) ->
  isPanoramaComplete s' = isPanoramaComplete s \/
  (currentQueue s = [] /\ isPanoramaComplete s' = true).
Proof.
  destruct s as [heap loc planes count cap first vp mk rr sc hc vi ins cc pc st th qr].
  unfold performCapture, currentQueue, queueAt. cbn.
  destruct st; cbn; [|intros [= <- <-]; by left].
  destruct cap; cbn; [intros [= <- <-]; by left|].
  destruct (negb rr || negb sc || bool_decide (vp = None) || bool_decide (mk = None)
            || negb hc || negb vi); [intros [= <- <-]; by left|].
  case_bool_decide as Hempty.
  - intros [= <- <-]. right. cbn. split; [|done].
    by destruct (heap !!! loc).
  - destruct (heap !!! loc); intros [= <- <-]; by left.
Qed.

(** The load handler sets it when the counter reaches [maxCaptures]. *)
Lemma onload_complete (c : Capture) (s s' : State) :
  performCapture_onload c s = Some s' ->
  isPanoramaComplete s'
  = if Active.maxCaptures <=? captureCountRef s + 1 then true else isPanoramaComplete s.
Proof.
  destruct s as [heap loc planes count cap first vp mk rr sc hc vi ins cc pc st th qr].
  destruct c as [az el q auto frame].
  unfold performCapture_onload, queueAt.
  cbn [cAzimuth cElevation cQueue cIsAuto cFrame].
  set (img := Sharpen.sharpenImage frame).
  destruct (heap !!! q) as [|next tl] eqn:Hq;
    destruct auto, vp as [vp|], mk as [mk|]; cbv zeta;
    cbn -[img Active.maxCaptures msgCaptured Z.add Z.leb];
    case_bool_decide as Hlen;
    cbn -[img Active.maxCaptures msgCaptured Z.add Z.leb];
    rewrite ?Hq;
    cbn -[img Active.maxCaptures msgCaptured Z.add Z.leb];
    try discriminate;
    destruct (Active.maxCaptures <=? count + 1);
    cbn -[img Active.maxCaptures msgCaptured Z.add Z.leb];
    intros [= <-]; done.
Qed.

(** No step of the component takes it out of [oneTileAtMost]. *)
Lemma step_oneTileAtMost (cfg cfg' : Ui.Config) :
  oneTileAtMost cfg -> Ui.step cfg cfg' -> oneTileAtMost cfg'.
Proof.
  intros Hinv Hstep.
  destruct Hstep as [s pending stable
                    |s s' pending frame o Hshown Henabled Hclick
                    |s s' pending markerCentered frame o Htick
                    |s s' pending Hshown Hreset
                    |s s' before after c Hload].
  - (* the stability effect *)
    unfold Ui.stabilityChange. case_bool_decide; [done|].
    destruct s. exact Hinv.
  - (* the Capture button *)
    destruct Hinv as (Hcc & Hpc & [(Hcnt & Hplanes & Hfirst & Hpending)|(_ & _ & Hfirst & _)]);
      [|unfold Ui.captureButtonShown in Hshown; rewrite Hfirst, andb_false_r in Hshown;
        discriminate].
    unfold captureImage in Hclick.
    destruct (negb (capturingRef s) && (captureCountRef s <? Active.maxCaptures))
      eqn:Hguard.
    + apply andb_prop in Hguard as [Hidle _]. apply negb_true_iff in Hidle.
      destruct Hpending as [->|(c & _ & _ & Hflight)]; [|congruence].
      pose proof (performCapture_complete false frame s s' o Hclick) as Hcomplete.
      assert (currentQueue s <> []) as Hqueue.
      { unfold Ui.captureButtonShown in Hshown.
        apply andb_prop in Hshown as [Hshown _]. apply andb_prop in Hshown as [_ Hlen].
        apply bool_decide_eq_true in Hlen. intros Hempty. rewrite Hempty in Hlen.
        cbn in Hlen. lia. }
      assert (isPanoramaComplete s' = false) as Hpc'
          by (destruct Hcomplete as [->|[? _]]; done).
      apply performCapture_cases in Hclick
        as [(Hplanes' & _ & Hcnt' & Hcc' & Hfirst' & _) Hcase].
      cbn [app]. split; [congruence|]. split; [done|]. left.
      split; [congruence|]. split; [congruence|]. split; [congruence|].
      destruct Hcase as [[Hnot _]|(target & rest & _ & -> & _ & _ & _ & _ & Hflight)].
      * left. destruct o as [|c|]; [done|by destruct (Hnot c)|done].
      * right. eexists. by repeat split.
    + injection Hclick as <- <-. rewrite app_nil_r.
      split; [done|]. split; [done|]. by left.
  - (* the animation loop *)
    rewrite animate_is_identity in Htick. injection Htick as <- <-.
    by rewrite app_nil_r.
  - (* the Reset button *)
    destruct Hinv as (Hcc & Hpc & [(Hcnt & _)|(Hcnt & Hplanes & Hfirst & ->)]).
    { unfold Ui.resetButtonShown in Hshown. rewrite Hcc, Hcnt in Hshown. discriminate. }
    apply resetPanorama_result in Hreset
      as [->|((Hcnt' & Hcc' & Hplanes' & Hfirst') & _ & _ & Hpc' & _)].
    + split; [done|]. split; [done|]. by right.
    + split; [congruence|]. split; [done|]. left. repeat split; try done. by left.
  - (* a load finishes *)
    destruct Hinv as (Hcc & Hpc & [(Hcnt & Hplanes & Hfirst & Hpending)|(_ & _ & _ & Hnone)]);
      [|by destruct before].
    destruct Hpending as [Hnone|(c0 & Hone & Hmanual & _)]; [by destruct before|].
    assert (before = [] /\ after = [] /\ c = c0) as (-> & -> & ->).
    { destruct before as [|b [|b' before]]; cbn in Hone.
      - by injection Hone as -> ->.
      - by injection Hone.
      - by injection Hone. }
    pose proof (onload_complete c0 s s' Hload) as Hpc'.
    apply onload_result in Hload
      as (_ & _ & Hplanes' & _ & Hcnt' & Hcc' & Hfirst' & _).
    rewrite Hcnt in Hpc', Hcnt', Hcc'. rewrite Hplanes in Hplanes'.
    rewrite Hmanual in Hfirst'.
    split; [by rewrite Hcc', Hcnt'|]. split; [by rewrite Hpc', Hpc|]. right.
    split; [by rewrite Hcnt'|]. split; [|done].
    rewrite Hplanes'. by destruct (queueAt (cQueue c0) s).
Qed.

End UiFacts.

(** X17.  Through its own controls the component never gets past the first
    tile.  Start from a session in which nothing has been captured, and let
    the device move or rest, the user click the Capture and Reset buttons
    whenever they are rendered and enabled, the animation loop run and
    pending loads finish, in any order: the counter never exceeds 1, there
    is never more than one tile nor more than one load pending,
    [isPanoramaComplete] is never set, and the Reset button is not rendered
    while a load is pending. *)
Theorem ui_never_gets_past_first_tile
        (s0 s : Session.State) (pending : list Session.Capture) :
  Notions.fresh s0 -> Session.isPanoramaComplete s0 = false ->
  rtc Ui.step (s0, []) (s, pending) ->
  Session.captureCountRef s <= 1 /\
  (length (Session.capturedPlanesRef s) <= 1)%nat /\
  (length pending <= 1)%nat /\
  Session.isPanoramaComplete s = false /\
  (pending <> [] -> Ui.resetButtonShown s = false).
Proof.
  intros (Hcnt & Hcc & Hplanes & Hfirst) Hpc Hrun.
  assert (Hinv : Notions.oneTileAtMost (s, pending)).
  { revert Hrun. generalize (s, pending). intros cfg.
    apply rtc_ind_r.
    - split; [congruence|]. split; [done|]. left. repeat split; try done. by left.
    - intros cfg1 cfg2 _ Hstep Hinv1. by apply (step_oneTileAtMost cfg1). }
  destruct Hinv as (Hcc' & Hpc' & [(Hcnt' & -> & _ & Hpending)|(-> & -> & _ & ->)]).
  - split; [lia|]. split; [cbn; lia|]. split.
    { destruct Hpending as [->|(c & -> & _)]; cbn; lia. }
    split; [done|]. intros _. unfold Ui.resetButtonShown. by rewrite Hcc', Hcnt'.
  - split; [lia|]. split; [lia|]. split; [cbn; lia|]. split; [done|]. done.
Qed.

(** The mounted session: the user captures the first image and the load
    finishes. *)
Lemma ui_never_gets_past_first_tile_witness :
  let c := Session.mkCapture 0 0 1 false Session.onePixel in
  let s := default Session.steady (Session.performCapture_onload c Session.inFlight) in
  Notions.fresh Session.steady /\
  rtc Ui.step (Session.steady, []) (s, []) /\
  Session.captureCountRef s = 1 /\
  Session.captureCountRef s <= 1 /\
  (length (Session.capturedPlanesRef s) <= 1)%nat /\
  (length (@nil Session.Capture) <= 1)%nat /\
  Session.isPanoramaComplete s = false /\
  (@nil Session.Capture <> [] -> Ui.resetButtonShown s = false).
Proof.
  intros c s.
  assert (Hfresh : Notions.fresh Session.steady) by (repeat split).
  assert (Hrun : rtc Ui.step (Session.steady, []) (s, [])).
  { apply (rtc_l _ _ (Session.inFlight, [c])).
    - apply (Ui.step_capture Session.steady Session.inFlight [] Session.onePixel
                             (Session.Loading c)); vm_compute; reflexivity.
    - apply (rtc_l _ _ (s, [])); [|apply rtc_refl].
      apply (Ui.step_loaded Session.inFlight s [] [] c). vm_compute. reflexivity. }
  split; [exact Hfresh|]. split; [exact Hrun|]. split; [vm_compute; reflexivity|].
  exact (ui_never_gets_past_first_tile Session.steady s [] Hfresh eq_refl Hrun).
Defined.

(** X18.  Resetting twice is resetting once: the second [resetPanorama]
    allocates another queue array with the same targets and changes nothing
    else, whether or not the scene is there. *)
Theorem reset_twice_is_reset_once (s s1 : Session.State) :
  Session.resetPanorama s = Some s1 ->
  exists s2,
    Session.resetPanorama s1 = Some s2 /\
    Session.currentQueue s2 = Session.currentQueue s1 /\
    Session.set_captureQueueRef (Session.captureQueueRef s1)
      (Session.set_heap (Session.heap s1) s2) = s1.
Proof.
  destruct s as [heap loc planes count cap first vp mk rr sc hc vi ins cc pc st th qr].
  unfold Session.resetPanorama at 1. cbn -[resetQueue coveragePlan].
  destruct (negb sc || bool_decide (vp = None) || bool_decide (mk = None)) eqn:Hguard.
  - intros [= <-]. exists (Session.mkState heap loc planes count cap first vp mk
                              rr sc hc vi ins cc pc st th qr).
    unfold Session.resetPanorama. cbn -[resetQueue coveragePlan]. by rewrite Hguard.
  - rewrite resetQueue_active.
    remember (coveragePlan Active.elevationLevels Active.azimuthIncrements) as plan.
    destruct sc, vp as [vp|], mk as [mk|]; try discriminate Hguard.
    assert (Hnew : forall h : list (list CaptureTarget), (h ++ [plan]) !!! length h = plan).
    { intros h. rewrite lookup_total_app_r by done. by rewrite Nat.sub_diag. }
    unfold Session.currentQueue, Session.queueAt. cbn. rewrite Hnew.
    intros [= <-].
    unfold Session.resetPanorama. cbn -[resetQueue coveragePlan].
    rewrite resetQueue_active, <- Heqplan.
    unfold Session.currentQueue, Session.queueAt.
    destruct plan as [|firstCapture plan]; cbn; rewrite !Hnew; cbn;
      (eexists; split; [reflexivity|]); cbn; rewrite ?Hnew; done.
Qed.

(** A reset of the session after its first capture. *)
Lemma reset_twice_is_reset_once_witness :
  let s := default Session.steady
             (Session.captureOnce false Session.onePixel Session.steady) in
  let s1 := default s (Session.resetPanorama s) in
  Session.captureCountRef s = 1 /\
  Session.resetPanorama s = Some s1 /\
  exists s2,
    Session.resetPanorama s1 = Some s2 /\
    Session.currentQueue s2 = Session.currentQueue s1 /\
    Session.set_captureQueueRef (Session.captureQueueRef s1)
      (Session.set_heap (Session.heap s1) s2) = s1.
Proof.
  intros s s1.
  assert (Hreset : Session.resetPanorama s = Some s1) by (vm_compute; reflexivity).
  split; [vm_compute; reflexivity|]. split; [exact Hreset|].
  exact (reset_twice_is_reset_once s s1 Hreset).
Defined.

(** X19.  A capture requested on an empty queue ends the session whatever
    the counter says: no frame is taken and no target returned, tiles,
    thumbnails and counters stay as they are, the panorama is marked
    complete, video plane and marker are hidden, and from then on neither
    the Capture nor the Reset button is rendered. *)
Theorem capture_on_empty_queue_ends_session
        (isAuto : bool) (frame : Sharpen.ImageData) (s : Session.State) :
  Session.ready s -> Session.isStable s = true -> Session.capturingRef s = false ->
  Session.currentQueue s = [] ->
  exists s',
    Session.performCapture isAuto frame s = (s', Session.Resolved) /\
    Notions.sameTiles s s' /\
    Session.isPanoramaComplete s' = true /\
    Session.instructions s' = Session.msgCompleted /\
    Session.visible <$> Session.videoPlaneRef s' = Some false /\
    Session.visible <$> Session.markerRef s' = Some false /\
    Ui.captureButtonShown s' = false /\
    Ui.resetButtonShown s' = false.
Proof.
  intros Hready Hstable Hidle Hqueue.
  destruct s as [heap loc planes count cap first vp mk rr sc hc vi ins cc pc st th qr].
  unfold Session.ready, Session.currentQueue, Session.queueAt in *.
  cbn in Hready, Hstable, Hidle, Hqueue. subst cap st.
  destruct Hready as (-> & -> & -> & -> & [vp' ->] & [mk' ->]).
  unfold Session.performCapture, Session.queueAt. cbn. rewrite Hqueue. cbn.
  eexists. split; [reflexivity|].
  unfold Notions.sameTiles, Ui.captureButtonShown, Ui.resetButtonShown,
    Session.currentQueue, Session.queueAt.
  cbn -[Z.ltb Active.maxCaptures]. rewrite Hqueue. cbn -[Z.ltb Active.maxCaptures].
  rewrite !andb_false_r. done.
Qed.

(** The component before [initializeQueue] has run: the queue ref still
    holds the empty array. *)
Lemma capture_on_empty_queue_ends_session_witness :
  let s := Session.mkState [[]] 0 [] 0 false false
             (Some (Session.mkObject None true)) (Some (Session.mkObject None true))
             true true true true Session.msgStart 0 false true [] false in
  Session.ready s /\ Session.currentQueue s = [] /\
  exists s',
    Session.performCapture false Session.onePixel s = (s', Session.Resolved) /\
    Notions.sameTiles s s' /\
    Session.isPanoramaComplete s' = true /\
    Session.instructions s' = Session.msgCompleted /\
    Session.visible <$> Session.videoPlaneRef s' = Some false /\
    Session.visible <$> Session.markerRef s' = Some false /\
    Ui.captureButtonShown s' = false /\
    Ui.resetButtonShown s' = false.
Proof.
  intros s.
  assert (Hready : Session.ready s).
  { unfold Session.ready. simpl. repeat split; eauto. }
  split; [exact Hready|]. split; [reflexivity|].
  exact (capture_on_empty_queue_ends_session false Session.onePixel s
           Hready eq_refl eq_refl eq_refl).
Defined.

Section MarkerFacts.

Import Session.
Import Notions.

(** [performCapture] moves neither the video plane nor the marker. *)
Lemma performCapture_positions (isAuto : bool) (frame : Sharpen.ImageData)
      (s s' : State) (o : Outcome) :
  performCapture isAuto frame s = (s', o) ->
  position <$> videoPlaneRef s' = position <$> videoPlaneRef s /\
  position <$> markerRef s' = position <$> markerRef s.
Proof.
  destruct s as [heap loc planes count cap first vp mk rr sc hc vi ins cc pc st th qr].
  unfold performCapture, queueAt. cbn.
  destruct st; cbn; [|by intros [= <- <-]].
  destruct cap; cbn; [by intros [= <- <-]|].
  destruct (negb rr || negb sc || bool_decide (vp = None) || bool_decide (mk = None)
            || negb hc || negb vi); [by intros [= <- <-]|].
  case_bool_decide.
  - intros [= <- <-]. cbn. by destruct vp, mk.
  - destruct (heap !!! loc); by intros [= <- <-].
Qed.

(** The load handler moves both to the head of the array its closure
    holds, and leaves them where they are when that array is empty. *)
Lemma onload_positions (c : Capture) (s s' : State) :
  performCapture_onload c s = Some s' ->
  match queueAt (cQueue c) s with
  | next :: _ =>
      position <$> videoPlaneRef s' = Some (Some next) /\
      position <$> markerRef s' = Some (Some next)
  | [] =>
      position <$> videoPlaneRef s' = position <$> videoPlaneRef s /\
      position <$> markerRef s' = position <$> markerRef s
  end.
Proof.
  destruct s as [heap loc planes count cap first vp mk rr sc hc vi ins cc pc st th qr].
  destruct c as [az el q auto frame].
  unfold performCapture_onload, queueAt.
  cbn [cAzimuth cElevation cQueue cIsAuto cFrame].
  set (img := Sharpen.sharpenImage frame).
  destruct (heap !!! q) as [|next tl] eqn:Hq;
    destruct auto, vp as [vp|], mk as [mk|]; cbv zeta;
    cbn -[img Active.maxCaptures msgCaptured Z.add Z.leb];
    case_bool_decide as Hlen;
    cbn -[img Active.maxCaptures msgCaptured Z.add Z.leb];
    rewrite ?Hq;
    cbn -[img Active.maxCaptures msgCaptured Z.add Z.leb];
    try discriminate;
    destruct (Active.maxCaptures <=? count + 1);
    cbn -[img Active.maxCaptures msgCaptured Z.add Z.leb];
    intros [= <-]; done.
Qed.

(** [resetPanorama] puts both at the first target of the new queue. *)
Lemma resetPanorama_markerAtHead (s s' : State) :
  markerAtHead s -> resetPanorama s = Some s' -> markerAtHead s'.
Proof.
  destruct s as [heap loc planes count cap first vp mk rr sc hc vi ins cc pc st th qr].
  intros Hhead. unfold resetPanorama. cbn -[resetQueue coveragePlan].
  destruct (negb sc || bool_decide (vp = None) || bool_decide (mk = None)) eqn:Hguard;
    [by intros [= <-]|].
  rewrite resetQueue_active.
  remember (coveragePlan Active.elevationLevels Active.azimuthIncrements) as plan.
  clear Heqplan Hhead.
  destruct sc, vp as [vp|], mk as [mk|]; try discriminate Hguard.
  assert (Hnew : (heap ++ [plan]) !!! length heap = plan).
  { rewrite lookup_total_app_r by done. by rewrite Nat.sub_diag. }
  unfold markerAtHead, currentQueue, queueAt. cbn. rewrite Hnew.
  destruct plan as [|firstCapture plan]; intros [= <-]; cbn; rewrite Hnew; cbn.
  - done.
  - by intros target [= <-].
Qed.

End MarkerFacts.

(** X20.  The live video plane and the guide marker follow the queue: if
    they sit at the head of the queue, they still do after a capture,
    whichever way it ends (a successful one moves them to the new head),
    after [resetPanorama], and after the scene has been rebuilt. *)
Theorem marker_follows_queue_head
        (isAuto : bool) (frame : Sharpen.ImageData) (s : Session.State) :
  Notions.markerAtHead s ->
  (forall s', Session.captureOnce isAuto frame s = Some s' -> Notions.markerAtHead s') /\
  (forall s', Session.resetPanorama s = Some s' -> Notions.markerAtHead s') /\
  Notions.markerAtHead (Ui.sceneEffect s).
Proof.
  intros Hhead. split; [|split].
  - intros s' Hone. unfold Session.captureOnce in Hone.
    destruct (Session.performCapture isAuto frame s) as [s1 o] eqn:Hcall.
    pose proof (performCapture_positions isAuto frame s s1 o Hcall) as [Hvp Hmk].
    apply performCapture_cases in Hcall as [(_ & _ & _ & _ & _ & Hloc) Hcase].
    destruct Hcase as [[Hnot Hheap]|(target & rest & Hq & -> & Hheap & Hq1 & _)].
    + destruct o as [|c|]; [|by destruct (Hnot c)|done].
      injection Hone as <-. intros target Htarget.
      unfold Session.currentQueue, Session.queueAt in *.
      rewrite Hloc, Hheap in Htarget. rewrite Hvp, Hmk. by apply Hhead.
    + pose proof (onload_positions _ s1 s' Hone) as Hpos.
      apply onload_result in Hone as (Hheap' & Hloc' & _).
      cbn [Session.cQueue] in Hpos.
      unfold Session.currentQueue in Hq1. rewrite Hloc in Hq1. rewrite Hq1 in Hpos.
      intros next Hnext.
      unfold Session.currentQueue, Session.queueAt in Hnext.
      rewrite Hloc', Hheap', Hloc in Hnext. unfold Session.queueAt in Hq1.
      rewrite Hq1 in Hnext. destruct rest as [|next' rest]; [done|].
      by injection Hnext as <-.
  - intros s' Hreset. by apply (resetPanorama_markerAtHead s).
  - intros target Htarget. cbn in *. unfold Session.currentQueue, Session.queueAt in *.
    cbn in Htarget. by rewrite Htarget.
Qed.

(** The mounted session. *)
Lemma marker_follows_queue_head_witness :
  Notions.markerAtHead Session.steady /\
  (forall s', Session.captureOnce false Session.onePixel Session.steady = Some s' ->
              Notions.markerAtHead s') /\
  (forall s', Session.resetPanorama Session.steady = Some s' ->
              Notions.markerAtHead s') /\
  Notions.markerAtHead (Ui.sceneEffect Session.steady).
Proof.
  assert (Hhead : Notions.markerAtHead Session.steady).
  { intros target Htarget. vm_compute in Htarget. injection Htarget as <-.
    split; reflexivity. }
  split; [exact Hhead|].
  exact (marker_follows_queue_head false Session.onePixel Session.steady Hhead).
Defined.

(* ===================================================================== *)
(** * A capture without a frame, and the Reset button *)
(* ===================================================================== *)

Section CameraFacts.

Import Sharpen.

(** Without a frame the hidden canvas is the cleared one of 1280 x 720. *)
Lemma drawImage_noFrame :
  Camera.drawImage Camera.noFrame = mkImage 1280 720 (createImageData 1280 720).
Proof. reflexivity. Qed.

(** A canvas that has only been sized holds zeros in every channel. *)
Lemma createImageData_uniform (w h c : Z) :
  0 <= c < 4 -> Notions.uniformChannel (mkImage w h (createImageData w h)) c 0.
Proof.
  intros Hc px py Hpx Hpy. cbn [width height] in Hpx, Hpy.
  unfold channel, createImageData. cbn [data width].
  apply lookup_total_replicate_2.
  assert (py * w <= (h - 1) * w) by (apply Z.mul_le_mono_nonneg_r; lia).
  assert (0 <= py * w) by (apply Z.mul_nonneg_nonneg; lia).
  lia.
Qed.

(** The filter turns the cleared canvas into opaque black: every tap reads
    zero, and alpha is written as 255. *)
Lemma sharpenImage_blank (w h : Z) :
  Notions.opaqueBlack (sharpenImage (mkImage w h (createImageData w h))).
Proof.
  intros x y c Hx Hy Hc.
  set (img := mkImage w h (createImageData w h)) in *.
  assert (Hw : width (sharpenImage img) = width img) by reflexivity.
  assert (Hh : height (sharpenImage img) = height img) by reflexivity.
  rewrite Hw in Hx. rewrite Hh in Hy.
  change (byteOffset (sharpenImage img) x y) with (byteOffset img x y).
  rewrite sharpenImage_lookup by done.
  unfold pixelValue. destruct (Z.eqb_spec c 3) as [->|Hc3]; [done|].
  rewrite (convolve_uniform img x y c 0); [done| |done|done].
  apply createImageData_uniform. lia.
Qed.

End CameraFacts.

(** C6.  A capture attempt whose frame acquisition fails does not abort.
    When the video element holds no frame, the hidden canvas is sized
    1280 x 720 and left blank, and the attempt runs to its end like any
    other: the head of the queue is dequeued, the counters go up by one and
    a tile for the dequeued target is committed, whose texture is the
    sharpened blank canvas, opaque black in every pixel. *)
Theorem capture_without_frame_commits_blank_tile
        (isAuto : bool) (s : Session.State)
        (target : CaptureTarget) (rest : list CaptureTarget) :
  Session.ready s -> Session.isStable s = true -> Session.capturingRef s = false ->
  Session.currentQueue s = target :: rest ->
  let frame := Camera.drawImage Camera.noFrame in
  let tile := Sharpen.sharpenImage frame in
  exists s',
    Session.captureOnce isAuto frame s = Some s' /\
    Session.currentQueue s' = rest /\
    Session.captureCountRef s' = Session.captureCountRef s + 1 /\
    Session.captureCount s' = Session.captureCountRef s + 1 /\
    Session.placedAt <$> Session.capturedPlanesRef s'
      = (Session.placedAt <$> Session.capturedPlanesRef s) ++ [target] /\
    Session.texture <$> Session.capturedPlanesRef s'
      = (Session.texture <$> Session.capturedPlanesRef s) ++ [tile] /\
    Session.capturingRef s' = false /\
    Sharpen.width tile = 1280 /\ Sharpen.height tile = 720 /\
    Notions.opaqueBlack tile.
Proof.
  intros Hready Hstable Hidle Hqueue frame tile.
  destruct (captureOnce_dequeues isAuto frame s target rest Hready Hstable Hidle Hqueue)
    as (s' & Hone & Hrest & _ & _ & Hidle' & Hplaced & Htexture & Hcnt & Hcc & _).
  exists s'. split; [exact Hone|]. split; [exact Hrest|]. split; [exact Hcnt|].
  split; [by rewrite Hcc|]. split; [exact Hplaced|]. split; [exact Htexture|].
  split; [exact Hidle'|]. split; [reflexivity|]. split; [reflexivity|].
  apply sharpenImage_blank.
Qed.

(** The first capture of the mounted session, the device held steady, the
    camera delivering nothing. *)
Lemma capture_without_frame_commits_blank_tile_witness :
  let s := Session.steady in
  let rest := tail (Session.currentQueue s) in
  let frame := Camera.drawImage Camera.noFrame in
  let tile := Sharpen.sharpenImage frame in
  Session.ready s /\ Session.isStable s = true /\ Session.capturingRef s = false /\
  Session.currentQueue s = mkTarget 0 0 :: rest /\
  Session.captureCountRef s = 0 /\ Session.capturedPlanesRef s = [] /\
  exists s',
    Session.captureOnce false frame s = Some s' /\
    Session.currentQueue s' = rest /\
    Session.captureCountRef s' = Session.captureCountRef s + 1 /\
    Session.captureCount s' = Session.captureCountRef s + 1 /\
    Session.placedAt <$> Session.capturedPlanesRef s'
      = (Session.placedAt <$> Session.capturedPlanesRef s) ++ [mkTarget 0 0] /\
    Session.texture <$> Session.capturedPlanesRef s'
      = (Session.texture <$> Session.capturedPlanesRef s) ++ [tile] /\
    Session.capturingRef s' = false /\
    Sharpen.width tile = 1280 /\ Sharpen.height tile = 720 /\
    Notions.opaqueBlack tile.
Proof.
  intros s rest frame tile.
  assert (Hready : Session.ready s) by (repeat split; eexists; reflexivity).
  assert (Hqueue : Session.currentQueue s = mkTarget 0 0 :: rest)
    by (vm_compute; reflexivity).
  split; [exact Hready|]. split; [reflexivity|]. split; [reflexivity|].
  split; [exact Hqueue|]. split; [reflexivity|]. split; [reflexivity|].
  exact (capture_without_frame_commits_blank_tile false s (mkTarget 0 0) rest
           Hready eq_refl eq_refl Hqueue).
Defined.

Section ResetFacts.

Import Session.
Import Notions.







End ResetFacts.


